(** * Customer lifetime value lab: baseline queries, metrics and data preparation

    The notebook [lab_exercise.ipynb] prepares three warehouse tables
    (raw, clean, ML), runs two baseline queries over the clean and the ML
    table, selects the train / validate / test subsets of the ML table and
    defines a custom [rmse] metric.

    Tables are lists of rows.  SQL [NULL] is [None].  Numeric columns hold
    exact rationals ([Q]); the square root of the metrics query and of [rmse]
    is taken in the real numbers, so floating-point rounding and overflow are
    outside this model.  A [DATE] is its day number (days since
    1970-01-01 in the proleptic Gregorian calendar). *)

From Stdlib Require Import String Bool ZArith QArith Qreals Reals Lra Lia List Permutation.
Import ListNotations.

Open Scope Z_scope.

(** ** Dates *)

Definition date := Z.

(** Day number of the civil date [y]-[m]-[d]. *)
Definition days_from_civil (y m d : Z) : Z :=
  let y' := if m <=? 2 then y - 1 else y in
  let era := y' / 400 in
  let yoe := y' - era * 400 in
  let mp := if 2 <? m then m - 3 else m + 9 in
  let doy := (153 * mp + 2) / 5 + d - 1 in
  let doe := yoe * 365 + yoe / 4 - yoe / 100 + doy in
  era * 146097 + doe - 719468.

(** [DATE('yyyy-mm-dd')]. *)
Definition DATE (y m d : Z) : date := days_from_civil y m d.

(** [DATE_DIFF(a, b, DAY)]: the number of day boundaries from [b] to [a]. *)
Definition DATE_DIFF (a b : date) : Z := a - b.

(** ** SQL expressions and aggregates over nullable values *)

Definition lift2 {A B C} (f : A -> B -> C) (a : option A) (b : option B) : option C :=
  match a, b with
  | Some x, Some y => Some (f x y)
  | _, _ => None
  end.

(** The non-NULL values of a column. *)
Fixpoint non_null {A} (l : list (option A)) : list A :=
  match l with
  | [] => []
  | Some x :: l' => x :: non_null l'
  | None :: l' => non_null l'
  end.

Definition Zsum (l : list Z) : Z := fold_right Z.add 0 l.
Definition Qsum (l : list Q) : Q := fold_right Qplus 0%Q l.

(** [COUNT(expr)]: the number of rows where [expr] is not NULL. *)
Definition COUNT {A} (l : list (option A)) : Z := Z.of_nat (length (non_null l)).

(** [SUM(expr)]: NULL when no row has a non-NULL value. *)
Definition SUM (l : list (option Q)) : option Q :=
  match non_null l with
  | [] => None
  | vs => Some (Qsum vs)
  end.

(** [AVG(expr)]: the mean of the non-NULL values, NULL when there is none. *)
Definition AVG (l : list (option Q)) : option Q :=
  match non_null l with
  | [] => None
  | vs => Some (Qsum vs / inject_Z (Z.of_nat (length vs)))%Q
  end.

(** [MIN(expr)] over dates. *)
Definition MIN (l : list (option date)) : option date :=
  match non_null l with
  | [] => None
  | d :: ds => Some (fold_right Z.min d ds)
  end.

(** [SAFE_DIVIDE(x, y)]: NULL instead of an error when [y] is zero. *)
Definition SAFE_DIVIDE (x y : Z) : option Q :=
  if y =? 0 then None else Some (inject_Z x / inject_Z y)%Q.

(** ** The data model *)

(** One line of an invoice (table [online_retail_clv_raw]). *)
Record RawTransaction := mkRaw {
  invoice_id : string;
  raw_customer_id : option Z;
  raw_country : option string;
  raw_order_date : date;
  quantity : Z;
  unit_price : Q
}.

Definition line_revenue (t : RawTransaction) : Q :=
  (inject_Z (quantity t) * unit_price t)%Q.

(** One order per customer and day (table [online_retail_clv_clean]). *)
Record DailyOrder := mkOrder {
  order_customer_id : option Z;
  order_date : date;
  order_country : option string;
  total_quantity : Z;
  total_revenue : Q
}.

(** One row per customer (table [online_retail_clv_ml]). *)
Record CustomerFeatureRecord := mkFeatures {
  customer_id : Z;
  customer_country : option string;
  n_purchases : Z;
  avg_purchase_size : Q;
  avg_purchase_revenue : Q;
  customer_age : Z;
  days_since_last_purchase : Z;
  target_monetary_value_3M : Q;
  data_split : option string
}.

(** ** The baseline queries of the notebook *)

(** A row of the common table expression [day_intervals]. *)
Record day_interval := mkInterval {
  di_customer_id : option Z;
  target_days : option Z;
  feature_days : option Z
}.

Definition key_eq_dec : forall a b : option Z, {a = b} + {a <> b}.
Proof. decide equality; apply Z.eq_dec. Defined.

Definition key_eqb (a b : option Z) : bool :=
  if key_eq_dec a b then true else false.

(** The rows of the clean table in the group of key [k]
    ([GROUP BY customer_id] puts the rows without a customer in one group). *)
Definition orders_of_key (k : option Z) (clean : list DailyOrder) : list DailyOrder :=
  filter (fun o => key_eqb (order_customer_id o) k) clean.

(** The row of [day_intervals] for the group of key [k]. *)
Definition interval_of (clean : list DailyOrder) (k : option Z) : day_interval :=
  {| di_customer_id := k;
     target_days := Some (DATE_DIFF (DATE 2011 12 1) (DATE 2011 9 1));
     feature_days :=
       option_map (DATE_DIFF (DATE 2011 9 1))
         (MIN (map (fun o => Some (order_date o)) (orders_of_key k clean))) |}.

(** [[
  day_intervals AS (
  SELECT customer_id,
      DATE_DIFF(DATE('2011-12-01'), DATE('2011-09-01'), DAY) AS target_days,
      DATE_DIFF(DATE('2011-09-01'), MIN(order_date), DAY) AS feature_days,
  FROM `online_retail.online_retail_clv_clean`
  GROUP BY customer_id)
]] *)
Definition day_intervals (clean : list DailyOrder) : list day_interval :=
  map (interval_of clean) (nodup key_eq_dec (map order_customer_id clean)).

Inductive join_kind := LEFT_JOIN | INNER_JOIN.

(** A row of the ML table joined with [day_intervals]: the columns of the
    right side are NULL where a LEFT JOIN found no partner. *)
Definition joined := (CustomerFeatureRecord * option day_interval)%type.

Definition joined_target_days (j : joined) : option Z :=
  match snd j with Some d => target_days d | None => None end.

Definition joined_feature_days (j : joined) : option Z :=
  match snd j with Some d => feature_days d | None => None end.

(** The rows of [day_intervals] whose [customer_id] equals the one of [m]
    (a NULL key equals nothing). *)
Definition partners (m : CustomerFeatureRecord) (di : list day_interval) : list day_interval :=
  filter (fun d => match di_customer_id d with
                   | Some c => c =? customer_id m
                   | None => false
                   end) di.

(** The joined rows that the ML row [m] contributes: one per partner, and
    under a LEFT JOIN one with NULLs when there is no partner. *)
Definition join_row (k : join_kind) (di : list day_interval) (m : CustomerFeatureRecord)
  : list joined :=
  match partners m di, k with
  | [], LEFT_JOIN => [(m, None)]
  | ds, _ => map (fun d => (m, Some d)) ds
  end.

(** [ml LEFT JOIN di USING(customer_id)] and [ml INNER JOIN di USING(customer_id)]. *)
Definition join (k : join_kind) (ml : list CustomerFeatureRecord) (di : list day_interval)
  : list joined :=
  flat_map (join_row k di) ml.

(** The joined rows in the group of customer [c]. *)
Definition group_of (c : Z) (js : list joined) : list joined :=
  filter (fun j => customer_id (fst j) =? c) js.

(** [SAFE_DIVIDE(COUNT(target_days), COUNT(feature_days))] over one group. *)
Definition ratio_term (g : list joined) : option Q :=
  SAFE_DIVIDE (COUNT (map joined_target_days g)) (COUNT (map joined_feature_days g)).

(** [[
  AVG(avg_purchase_revenue)
    * (COUNT(n_purchases) * (1 + SAFE_DIVIDE(COUNT(target_days),COUNT(feature_days))))
]] *)
Definition predicted_value (g : list joined) : option Q :=
  lift2 Qmult
    (AVG (map (fun j => Some (avg_purchase_revenue (fst j))) g))
    (lift2 Qmult
       (Some (inject_Z (COUNT (map (fun j => Some (n_purchases (fst j))) g))))
       (lift2 Qplus (Some 1%Q) (ratio_term g))).

(** A row of the common table expression [predicted_clv]. *)
Record prediction := mkPrediction {
  clv_customer_id : Z;
  predicted_monetary_value_3M : option Q;
  clv_target_monetary_value_3M : option Q
}.

(** [[
  predicted_clv AS (
  SELECT customer_id,
      AVG(avg_purchase_revenue) * (...) AS predicted_monetary_value_3M,
      SUM(target_monetary_value_3M) AS target_monetary_value_3M
  FROM `online_retail.online_retail_clv_ml`
  LEFT JOIN day_intervals USING(customer_id)     -- INNER JOIN in the second query
  GROUP BY customer_id)
]] *)
Definition predicted_clv (k : join_kind) (ml : list CustomerFeatureRecord)
    (clean : list DailyOrder) : list prediction :=
  let js := join k ml (day_intervals clean) in
  map (fun c =>
         let g := group_of c js in
         {| clv_customer_id := c;
            predicted_monetary_value_3M := predicted_value g;
            clv_target_monetary_value_3M :=
              SUM (map (fun j => Some (target_monetary_value_3M (fst j))) g) |})
      (nodup Z.eq_dec (map (fun j => customer_id (fst j)) js)).

(** The second query, [SELECT * FROM predicted_clv], read into [baseline]. *)
Definition baseline (ml : list CustomerFeatureRecord) (clean : list DailyOrder)
  : list prediction :=
  predicted_clv INNER_JOIN ml clean.

(** The formula of the design document for one customer. *)
Definition documented_value (avg_revenue : Q) (n target feature : Z) : Q :=
  (avg_revenue * inject_Z n * (1 + inject_Z target / inject_Z feature))%Q.

(** The selection of the three subsets from the data frame [clv]:
    [clv.loc[clv.data_split == 'TRAIN', :]] and its two siblings. *)
Definition select_split (s : string) (clv : list CustomerFeatureRecord)
  : list CustomerFeatureRecord :=
  filter (fun r => match data_split r with
                   | Some x => String.eqb x s
                   | None => false
                   end) clv.

Definition clv_train := select_split "TRAIN".
Definition clv_dev := select_split "VALIDATE".
Definition clv_test := select_split "TEST".

(** ** Data preparation: from raw transactions to the ML table *)

Definition order_key := (option Z * date)%type.

Definition order_key_eq_dec : forall a b : order_key, {a = b} + {a <> b}.
Proof. decide equality; [apply Z.eq_dec | apply key_eq_dec]. Defined.

Definition raw_key (t : RawTransaction) : order_key :=
  (raw_customer_id t, raw_order_date t).

Definition lines_of_key (k : order_key) (raw : list RawTransaction) : list RawTransaction :=
  filter (fun t => if order_key_eq_dec (raw_key t) k then true else false) raw.

(** Modelled from the spec: the script [utils/data_download.py] that builds the
    clean table is not part of the sources.  Daily aggregation groups the
    lines by (customer_id, calendar date of the invoice) and sums quantity and
    revenue, revenue being quantity times unit price per line; lines without a
    customer form groups of their own.  The decimal total is kept in lowest
    terms.  The design is silent on the country of a group: it is read off
    the first line of the group. *)
Definition daily_order (k : order_key) (raw : list RawTransaction) : DailyOrder :=
  let g := lines_of_key k raw in
  {| order_customer_id := fst k;
     order_date := snd k;
     order_country := match g with [] => None | t :: _ => raw_country t end;
     total_quantity := Zsum (map quantity g);
     total_revenue := Qred (Qsum (map line_revenue g)) |}.

(** Modelled from the spec: one daily order per group of lines, the stage of
    [utils/data_download.py] that feeds the clean table. *)
Definition daily_aggregation (raw : list RawTransaction) : list DailyOrder :=
  map (fun k => daily_order k raw) (nodup order_key_eq_dec (map raw_key raw)).

(** The totals of the group of customer [c] on day [d], if there is one. *)
Definition daily_totals (orders : list DailyOrder) (c : option Z) (d : date)
  : option (Z * Q) :=
  option_map (fun o => (total_quantity o, total_revenue o))
    (find (fun o => if order_key_eq_dec (order_customer_id o, order_date o) (c, d)
                    then true else false) orders).

Definition Qpositive (q : Q) : bool := negb (Qle_bool q 0).

(** Modelled from the spec: the validity filter of [utils/data_download.py]
    keeps the orders with a customer, a strictly positive quantity and a
    strictly positive revenue. *)
Definition validity_filter (orders : list DailyOrder) : list DailyOrder :=
  filter (fun o => match order_customer_id o with Some _ => true | None => false end
                   && (0 <? total_quantity o) && Qpositive (total_revenue o)) orders.

(** The three calendar boundaries of the study. *)
Record window := mkWindow {
  study_start : date;
  feature_end : date;
  study_end : date
}.

Definition in_feature_window (w : window) (o : DailyOrder) : bool :=
  (study_start w <=? order_date o) && (order_date o <? feature_end w).

Definition in_study_window (w : window) (o : DailyOrder) : bool :=
  (study_start w <=? order_date o) && (order_date o <? study_end w).

(** The most recent order with a country, and that country. *)
Fixpoint latest_country (orders : list DailyOrder) : option (date * string) :=
  match orders with
  | [] => None
  | o :: rest =>
      match latest_country rest, order_country o with
      | Some (d, c), Some c' =>
          if d <? order_date o then Some (order_date o, c') else Some (d, c)
      | None, Some c' => Some (order_date o, c')
      | r, None => r
      end
  end.

Definition Qmean (l : list Q) : Q := (Qsum l / inject_Z (Z.of_nat (length l)))%Q.

(** Modelled from the spec: the windowed feature and target computation of
    [utils/data_download.py], for one customer.  There is no record for a
    customer without an order in the feature window. *)
Definition customer_features (w : window) (orders : list DailyOrder) (c : Z)
  : option CustomerFeatureRecord :=
  let mine := orders_of_key (Some c) orders in
  match filter (in_feature_window w) mine with
  | [] => None
  | o :: rest =>
      let fw := o :: rest in
      Some {| customer_id := c;
              customer_country := option_map snd (latest_country fw);
              n_purchases := Z.of_nat (length fw);
              avg_purchase_size := Qmean (map (fun x => inject_Z (total_quantity x)) fw);
              avg_purchase_revenue := Qmean (map total_revenue fw);
              customer_age :=
                DATE_DIFF (feature_end w) (fold_right Z.min (order_date o) (map order_date rest));
              days_since_last_purchase :=
                DATE_DIFF (feature_end w) (fold_right Z.max (order_date o) (map order_date rest));
              target_monetary_value_3M :=
                Qsum (map total_revenue (filter (in_study_window w) mine));
              data_split := None |}
  end.

Definition option_list {A} (o : option A) : list A :=
  match o with Some x => [x] | None => [] end.

(** Modelled from the spec: one record per customer with an order in the
    feature window; [utils/data_download.py] is not part of the sources. *)
Definition windowed_features (w : window) (orders : list DailyOrder)
  : list CustomerFeatureRecord :=
  flat_map (fun c => option_list (customer_features w orders c))
    (nodup Z.eq_dec (non_null (map order_customer_id orders))).

Definition set_data_split (s : string) (r : CustomerFeatureRecord) : CustomerFeatureRecord :=
  {| customer_id := customer_id r;
     customer_country := customer_country r;
     n_purchases := n_purchases r;
     avg_purchase_size := avg_purchase_size r;
     avg_purchase_revenue := avg_purchase_revenue r;
     customer_age := customer_age r;
     days_since_last_purchase := days_since_last_purchase r;
     target_monetary_value_3M := target_monetary_value_3M r;
     data_split := Some s |}.

Section SplitAssignment.

(** The hash of a customer identifier; the identity gives the fixed-modulo
    variant. *)
Variable fingerprint : Z -> Z.

(** Modelled from the spec: the split assignment of [utils/data_download.py],
    a partition keyed on the customer identifier alone, with proportions of
    about 70 / 15 / 15. *)
Definition assign_split (c : Z) : string :=
  let bucket := Z.abs (fingerprint c) mod 100 in
  if bucket <? 70 then "TRAIN"%string
  else if bucket <? 85 then "VALIDATE"%string
  else "TEST"%string.

(** Modelled from the spec: the split column of the ML table, filled in by
    [utils/data_download.py] from the customer identifier of each row. *)
Definition split_assignment (t : list CustomerFeatureRecord) : list CustomerFeatureRecord :=
  map (fun r => set_data_split (assign_split (customer_id r)) r) t.

(** Modelled from the spec: the whole preparation of the ML table by
    [utils/data_download.py], stage after stage. *)
Definition build_ml_table (w : window) (raw : list RawTransaction)
  : list CustomerFeatureRecord :=
  split_assignment (windowed_features w (validity_filter (daily_aggregation raw))).

End SplitAssignment.

(** ** The metrics of the first baseline query *)

Open Scope R_scope.

Definition Rsum (l : list R) : R := fold_right Rplus 0 l.

Definition Rmean (l : list R) : R := Rsum l / INR (length l).

(** [AVG(expr)] over real values. *)
Definition AVG_R (l : list (option R)) : option R :=
  match non_null l with
  | [] => None
  | vs => Some (Rmean vs)
  end.

(** [ROUND(x, n)]: to [n] decimals, halfway cases away from zero. *)
Definition ROUND (x : R) (n : nat) : R :=
  if Rle_dec 0 x
  then IZR (Int_part (x * 10 ^ n + / 2)) / 10 ^ n
  else - (IZR (Int_part (- x * 10 ^ n + / 2)) / 10 ^ n).

(** [predicted_monetary_value_3M - target_monetary_value_3M], NULL when
    either side is. *)
Definition residual (p : prediction) : option R :=
  lift2 (fun a b => Q2R a - Q2R b)
    (predicted_monetary_value_3M p) (clv_target_monetary_value_3M p).

(** [AVG(ABS(predicted - target))] before rounding. *)
Definition mean_absolute_error (ps : list prediction) : option R :=
  AVG_R (map (fun p => option_map Rabs (residual p)) ps).

(** [AVG(POW(predicted - target, 2))] before rounding. *)
Definition mean_squared_error (ps : list prediction) : option R :=
  AVG_R (map (fun p => option_map (fun x => x ^ 2) (residual p)) ps).

Record metrics := mkMetrics {
  MAE : option R;
  MSE : option R;
  RMSE : option R
}.

(** [[
  SELECT
    ROUND(AVG(ABS(predicted_monetary_value_3M - target_monetary_value_3M)), 2) AS MAE,
    ROUND(AVG(POW(predicted_monetary_value_3M - target_monetary_value_3M, 2)), 2) AS MSE,
    ROUND(SQRT(AVG(POW(predicted_monetary_value_3M - target_monetary_value_3M, 2))), 2) AS RMSE
  FROM predicted_clv
]] *)
Definition baseline_metrics (ps : list prediction) : metrics :=
  {| MAE := option_map (fun v => ROUND v 2) (mean_absolute_error ps);
     MSE := option_map (fun v => ROUND v 2) (mean_squared_error ps);
     RMSE := option_map (fun v => ROUND v 2) (option_map sqrt (mean_squared_error ps)) |}.

(** The first query of the notebook. *)
Definition baseline_query (ml : list CustomerFeatureRecord) (clean : list DailyOrder)
  : metrics :=
  baseline_metrics (predicted_clv LEFT_JOIN ml clean).

(** ** The custom metric [rmse] *)

(** A vector of reals.  What [rmse] yields: a number, NaN (the mean of no
    element), or no result at all (shapes that do not broadcast). *)
Definition tensor := list R.

Inductive outcome :=
| Scalar (x : R)
| NaN
| InvalidArgument.

Definition zip_with {A B C} (f : A -> B -> C) (a : list A) (b : list B) : list C :=
  map (fun xy => f (fst xy) (snd xy)) (combine a b).

(** [a - b], elementwise; a vector of one element is broadcast. *)
Definition tf_sub (a b : tensor) : option tensor :=
  if Nat.eqb (length a) (length b) then Some (zip_with Rminus a b)
  else match a, b with
       | [x], _ => Some (map (fun y => x - y) b)
       | _, [y] => Some (map (fun x => x - y) a)
       | _, _ => None
       end.

Definition tf_square (t : tensor) : tensor := map (fun x => x * x) t.

Definition tf_reduce_mean (t : tensor) : option R :=
  match t with
  | [] => None
  | _ => Some (Rmean t)
  end.

(** [[
  def rmse(y_true, y_pred):
      return tf.sqrt(tf.reduce_mean(tf.square(y_pred - y_true)))
]] *)
Definition rmse (y_true y_pred : tensor) : outcome :=
  match tf_sub y_pred y_true with
  | None => InvalidArgument
  | Some d =>
      match tf_reduce_mean (tf_square d) with
      | None => NaN
      | Some m => Scalar (sqrt m)
      end
  end.

(** ** The remaining cells of the notebook *)

Open Scope Z_scope.

Definition is_some {A} (o : option A) : bool :=
  match o with Some _ => true | None => false end.

(** Whether customer [c] has an order in the clean table. *)
Definition has_orders (clean : list DailyOrder) (c : Z) : bool :=
  if in_dec key_eq_dec (Some c) (map order_customer_id clean) then true else false.

Definition split_eq_dec : forall a b : option string, {a = b} + {a <> b}.
Proof. decide equality; apply string_dec. Defined.

(** The rows of the ML table in the group of the split value [k]. *)
Definition rows_of_split (k : option string) (ml : list CustomerFeatureRecord)
  : list CustomerFeatureRecord :=
  filter (fun r => if split_eq_dec (data_split r) k then true else false) ml.

(** [[
  SELECT data_split, COUNT( * )
  FROM `online_retail.online_retail_clv_ml`
  GROUP BY data_split
]] *)
Definition split_counts (ml : list CustomerFeatureRecord) : list (option string * Z) :=
  map (fun k => (k, Z.of_nat (length (rows_of_split k ml))))
      (nodup split_eq_dec (map data_split ml)).

Definition BATCH_SIZE : nat := 32.

(** [ds.prefetch(n)]: the same elements in the same order. *)
Definition prefetch {A} (n : nat) (ds : list A) : list A := ds.

(** Consecutive runs of [n] elements; the last run holds what is left. *)
Fixpoint chunks {A} (fuel n : nat) (l : list A) : list (list A) :=
  match fuel, l with
  | S f, _ :: _ => firstn n l :: chunks f n (skipn n l)
  | _, _ => []
  end.

(** [ds.batch(n)]: no remainder is dropped; a batch size of zero is refused. *)
Definition batch {A} (n : nat) (ds : list A) : option (list (list A)) :=
  if Nat.eqb n 0 then None else Some (chunks (length ds) n ds).

(** [ds.prefetch(1).batch(BATCH_SIZE)], the tail of the pipelines that build
    [trainds] (before [repeat]), [devds] and [testds], for a data set [ds]
    that [df_dataset] has returned. *)
Definition batched {A} (ds : list A) : option (list (list A)) :=
  batch BATCH_SIZE (prefetch 1 ds).

(** The row of [predicted_clv] for the group of customer [c]. *)
Definition prediction_of (k : join_kind) (ml : list CustomerFeatureRecord)
    (clean : list DailyOrder) (c : Z) : prediction :=
  let g := group_of c (join k ml (day_intervals clean)) in
  {| clv_customer_id := c;
     predicted_monetary_value_3M := predicted_value g;
     clv_target_monetary_value_3M :=
       SUM (map (fun j => Some (target_monetary_value_3M (fst j))) g) |}.

(** The ML rows of customer [c]. *)
Definition ml_rows_of (c : Z) (ml : list CustomerFeatureRecord) : list CustomerFeatureRecord :=
  filter (fun m => customer_id m =? c) ml.

(** ** Worked inputs *)

Open Scope Z_scope.

(** The scenario of the design document: two orders of 50 and 70 in the
    feature window, one of 40 in the target window. *)
Definition scenario_window : window :=
  mkWindow (DATE 2011 6 1) (DATE 2011 9 1) (DATE 2011 12 1).

Definition scenario_raw : list RawTransaction :=
  [ mkRaw "536365" (Some 17850) (Some "United Kingdom"%string) (DATE 2011 6 10) 2 10;
    mkRaw "536365" (Some 17850) (Some "United Kingdom"%string) (DATE 2011 6 10) 3 10;
    mkRaw "536370" (Some 17850) (Some "United Kingdom"%string) (DATE 2011 8 20) 7 10;
    mkRaw "536371" (Some 17850) (Some "United Kingdom"%string) (DATE 2011 10 5) 4 10;
    mkRaw "C53637" (Some 17850) (Some "United Kingdom"%string) (DATE 2011 7 1) (-1) 10;
    mkRaw "536380" None (Some "France"%string) (DATE 2011 7 2) 1 (5 # 2) ].

Definition scenario_clean : list DailyOrder :=
  validity_filter (daily_aggregation scenario_raw).

Definition scenario_ml : list CustomerFeatureRecord :=
  build_ml_table (fun c => c) scenario_window scenario_raw.

(** Three customers with no split yet. *)
Definition unsplit_ml : list CustomerFeatureRecord :=
  [ mkFeatures 12346 None 1 3 60 10 10 60 None;
    mkFeatures 12375 None 2 4 35 40 5 90 None;
    mkFeatures 12390 None 5 2 20 80 1 130 None ].

(** A customer whose first order falls on the last day boundary of the
    feature window, 2011-09-01. *)
Definition boundary_ml : list CustomerFeatureRecord :=
  [ mkFeatures 12347 None 1 3 60 0 0 60 (Some "TEST"%string) ].

Definition boundary_clean : list DailyOrder :=
  [ mkOrder (Some 12347) (DATE 2011 9 1) None 3 60 ].

(** The scenario with one more customer, whose only order is on 2011-09-01. *)
Definition boundary_raw : list RawTransaction :=
  scenario_raw ++
  [ mkRaw "570001" (Some 12347) (Some "Iceland"%string) (DATE 2011 9 1) 3 20 ].

(** * Properties *)

(** ** Dates *)

Example epoch : DATE 1970 1 1 = 0.
Proof. reflexivity. Qed.

Example leap_day : DATE_DIFF (DATE 2012 3 1) (DATE 2012 2 28) = 2.
Proof. reflexivity. Qed.

Example scenario_intervals :
  DATE_DIFF (DATE 2011 9 1) (DATE 2011 6 10) = 83 /\
  DATE_DIFF (DATE 2011 9 1) (DATE 2011 8 20) = 12.
Proof. split; reflexivity. Qed.

(** ** Lists, groups and aggregates *)

Lemma non_null_map_Some {A B} (f : A -> B) (l : list A) :
  non_null (map (fun x => Some (f x)) l) = map f l.
Proof.
  induction l as [|x l IH]; simpl; [reflexivity | now rewrite IH].
Qed.

Lemma fold_min_le (d : Z) (ds : list Z) :
  forall x, In x (d :: ds) -> fold_right Z.min d ds <= x.
Proof.
  induction ds as [|e ds IH]; simpl; intros x Hx.
  - destruct Hx as [Hx | []]; lia.
  - pose proof (IH d (or_introl eq_refl)) as Hd.
    destruct Hx as [Hx | [Hx | Hx]]; [lia | lia |].
    specialize (IH x (or_intror Hx)); lia.
Qed.

Lemma fold_min_in (d : Z) (ds : list Z) :
  In (fold_right Z.min d ds) (d :: ds).
Proof.
  induction ds as [|e ds IH]; simpl; [now left|].
  destruct (Z.min_spec e (fold_right Z.min d ds)) as [[_ ->] | [_ ->]].
  - right; now left.
  - destruct IH as [IH | IH]; [now left | right; now right].
Qed.

Lemma fold_max_ge (d : Z) (ds : list Z) :
  forall x, In x (d :: ds) -> x <= fold_right Z.max d ds.
Proof.
  induction ds as [|e ds IH]; simpl; intros x Hx.
  - destruct Hx as [Hx | []]; lia.
  - pose proof (IH d (or_introl eq_refl)) as Hd.
    destruct Hx as [Hx | [Hx | Hx]]; [lia | lia |].
    specialize (IH x (or_intror Hx)); lia.
Qed.

Lemma fold_max_in (d : Z) (ds : list Z) :
  In (fold_right Z.max d ds) (d :: ds).
Proof.
  induction ds as [|e ds IH]; simpl; [now left|].
  destruct (Z.max_spec e (fold_right Z.max d ds)) as [[_ ->] | [_ ->]].
  - destruct IH as [IH | IH]; [now left | right; now right].
  - right; now left.
Qed.

Lemma key_eqb_true (a b : option Z) : key_eqb a b = true <-> a = b.
Proof.
  unfold key_eqb; destruct (key_eq_dec a b); split; congruence.
Qed.

Lemma filter_nil {A} (p : A -> bool) (l : list A) :
  (forall y, In y l -> p y = false) -> filter p l = [].
Proof.
  induction l as [|y l IH]; simpl; intros H; [reflexivity|].
  rewrite (H y (or_introl eq_refl)). apply IH. intros z Hz. apply H. now right.
Qed.

(** In a list without duplicates, a selection that only one member passes
    yields that member alone. *)
Lemma filter_unique {A} (p : A -> bool) (l : list A) (x : A) :
  NoDup l -> In x l -> p x = true ->
  (forall y, In y l -> p y = true -> y = x) ->
  filter p l = [x].
Proof.
  induction l as [|y l IH]; simpl; intros Hnd Hin Hpx Huniq; [contradiction|].
  inversion Hnd as [|? ? Hnotin Hnd']; subst.
  destruct Hin as [-> | Hin].
  - rewrite Hpx. f_equal. apply filter_nil. intros z Hz.
    destruct (p z) eqn:Hpz; [|reflexivity].
    exfalso. apply Hnotin. rewrite <- (Huniq z (or_intror Hz) Hpz). exact Hz.
  - destruct (p y) eqn:Hpy.
    + exfalso. apply Hnotin. rewrite (Huniq y (or_introl eq_refl) Hpy). exact Hin.
    + apply IH; auto.
Qed.

Lemma filter_map_swap {A B} (f : A -> B) (p : B -> bool) (l : list A) :
  filter p (map f l) = map f (filter (fun x => p (f x)) l).
Proof.
  induction l as [|x l IH]; simpl; [reflexivity|].
  destruct (p (f x)); simpl; now rewrite IH.
Qed.

(** ** The common table expression [day_intervals] *)

Lemma day_intervals_eq (clean : list DailyOrder) :
  day_intervals clean =
  map (interval_of clean) (nodup key_eq_dec (map order_customer_id clean)).
Proof. reflexivity. Qed.

Lemma day_intervals_keys (clean : list DailyOrder) :
  map di_customer_id (day_intervals clean) =
  nodup key_eq_dec (map order_customer_id clean).
Proof.
  rewrite day_intervals_eq, map_map. simpl. apply map_id.
Qed.

Lemma orders_of_key_in (k : option Z) (clean : list DailyOrder) (o : DailyOrder) :
  In o (orders_of_key k clean) <-> In o clean /\ order_customer_id o = k.
Proof.
  unfold orders_of_key. rewrite filter_In, key_eqb_true. reflexivity.
Qed.

(** A key of the clean table has a non-NULL [feature_days], counted from the
    earliest order of its group. *)
Lemma interval_of_feature_days (clean : list DailyOrder) (k : option Z) :
  In k (map order_customer_id clean) ->
  exists first : date,
    In first (map order_date (orders_of_key k clean)) /\
    (forall o, In o clean -> order_customer_id o = k -> first <= order_date o) /\
    feature_days (interval_of clean k) = Some (DATE 2011 9 1 - first).
Proof.
  intros Hk. apply in_map_iff in Hk as [o0 [Hk0 Hin0]].
  assert (Hg : In o0 (orders_of_key k clean)) by (apply orders_of_key_in; auto).
  unfold interval_of; simpl. unfold MIN. rewrite non_null_map_Some.
  destruct (map order_date (orders_of_key k clean)) as [|d ds] eqn:Hds.
  - apply (in_map order_date) in Hg. rewrite Hds in Hg. contradiction.
  - exists (fold_right Z.min d ds). split; [apply fold_min_in|]. split; [|reflexivity].
    intros o Ho Hko. apply fold_min_le.
    assert (Ho' : In (order_date o) (map order_date (orders_of_key k clean)))
      by (apply in_map, orders_of_key_in; auto).
    now rewrite Hds in Ho'.
Qed.

(** The rows of [day_intervals] that join with the customer [c]. *)
Lemma partners_day_intervals (m : CustomerFeatureRecord) (clean : list DailyOrder) :
  In (Some (customer_id m)) (map order_customer_id clean) ->
  partners m (day_intervals clean) = [interval_of clean (Some (customer_id m))].
Proof.
  intros Hin. unfold partners. rewrite day_intervals_eq, filter_map_swap. simpl.
  rewrite (filter_unique _ _ (Some (customer_id m))); [reflexivity | | | |].
  - apply NoDup_nodup.
  - apply nodup_In; exact Hin.
  - apply Z.eqb_refl.
  - intros [c|] _ Hc; [|discriminate]. apply Z.eqb_eq in Hc. now subst.
Qed.

Lemma partners_nil (m : CustomerFeatureRecord) (di : list day_interval) :
  ~ In (Some (customer_id m)) (map di_customer_id di) -> partners m di = [].
Proof.
  intros Hnot. apply filter_nil. intros d Hd.
  destruct (di_customer_id d) as [c|] eqn:Hc; [|reflexivity].
  apply Z.eqb_neq. intros ->. apply Hnot. rewrite <- Hc. now apply in_map.
Qed.

Lemma partners_not_nil (m : CustomerFeatureRecord) (di : list day_interval) :
  In (Some (customer_id m)) (map di_customer_id di) -> partners m di <> [].
Proof.
  intros Hin Hnil. apply in_map_iff in Hin as [d [Hc Hd]].
  assert (In d (partners m di)) as Hp.
  { apply filter_In. split; [exact Hd|]. rewrite Hc. apply Z.eqb_refl. }
  rewrite Hnil in Hp. contradiction.
Qed.

(** ** Joins and groups *)

Lemma join_row_fst k di m j : In j (join_row k di m) -> fst j = m.
Proof.
  unfold join_row. destruct (partners m di) as [|d ds]; destruct k; simpl.
  - intros [<- | []]; reflexivity.
  - contradiction.
  - intros [<- | H]; [reflexivity|]. apply in_map_iff in H as [? [<- _]]. reflexivity.
  - intros [<- | H]; [reflexivity|]. apply in_map_iff in H as [? [<- _]]. reflexivity.
Qed.

Lemma filter_all {A} (p : A -> bool) (l : list A) :
  (forall y, In y l -> p y = true) -> filter p l = l.
Proof.
  induction l as [|y l IH]; simpl; intros H; [reflexivity|].
  rewrite (H y (or_introl eq_refl)). f_equal. apply IH. intros z Hz. apply H. now right.
Qed.

(** Grouping the joined rows by customer is grouping the ML rows first. *)
Lemma group_of_join (c : Z) (k : join_kind) (ml : list CustomerFeatureRecord)
    (di : list day_interval) :
  group_of c (join k ml di) = join k (filter (fun m => customer_id m =? c) ml) di.
Proof.
  unfold group_of, join, joined.
  induction ml as [|m ml IH]; [reflexivity|].
  cbn [flat_map filter]. rewrite filter_app, IH.
  destruct (customer_id m =? c) eqn:Hc; cbn [flat_map].
  - f_equal. apply filter_all. intros j Hj. now rewrite (join_row_fst _ _ _ _ Hj).
  - rewrite filter_nil; [reflexivity|]. intros j Hj. now rewrite (join_row_fst _ _ _ _ Hj).
Qed.

Lemma ml_row_unique (ml : list CustomerFeatureRecord) (m : CustomerFeatureRecord) :
  NoDup (map customer_id ml) -> In m ml ->
  filter (fun x => customer_id x =? customer_id m) ml = [m].
Proof.
  induction ml as [|y ml IH]; simpl; intros Hnd Hin; [contradiction|].
  inversion Hnd as [|? ? Hnotin Hnd']; subst.
  destruct Hin as [-> | Hin].
  - rewrite Z.eqb_refl. f_equal. apply filter_nil. intros z Hz.
    apply Z.eqb_neq. intros Heq. apply Hnotin. rewrite <- Heq. now apply in_map.
  - destruct (customer_id y =? customer_id m) eqn:Hy.
    + exfalso. apply Z.eqb_eq in Hy. apply Hnotin. rewrite Hy. now apply in_map.
    + now apply IH.
Qed.

(** With one ML row per customer and the customer present in the clean
    table, the group of a customer is a single joined row, for both joins. *)
Lemma group_single (k : join_kind) (ml : list CustomerFeatureRecord)
    (clean : list DailyOrder) (m : CustomerFeatureRecord) :
  NoDup (map customer_id ml) -> In m ml ->
  In (Some (customer_id m)) (map order_customer_id clean) ->
  group_of (customer_id m) (join k ml (day_intervals clean)) =
  [(m, Some (interval_of clean (Some (customer_id m))))].
Proof.
  intros Hnd Hin Hclean.
  rewrite group_of_join, (ml_row_unique _ _ Hnd Hin).
  unfold join; cbn [flat_map]. unfold join_row.
  rewrite (partners_day_intervals _ _ Hclean).
  destruct k; reflexivity.
Qed.

(** C5. In [day_intervals], [target_days] is the length of the target window,
    the 91 days from 2011-09-01 to 2011-12-01, the same in every row, and
    [feature_days] is the number of days from the earliest order of the row's
    customer to 2011-09-01. *)
Theorem day_intervals_target_and_feature_days (clean : list DailyOrder) (r : day_interval) :
  In r (day_intervals clean) ->
  DATE_DIFF (DATE 2011 12 1) (DATE 2011 9 1) = 91 /\
  target_days r = Some 91 /\
  exists first : date,
    In first (map order_date (orders_of_key (di_customer_id r) clean)) /\
    (forall o, In o clean -> order_customer_id o = di_customer_id r ->
               first <= order_date o) /\
    feature_days r = Some (DATE_DIFF (DATE 2011 9 1) first).
Proof.
  intros Hr. rewrite day_intervals_eq in Hr.
  apply in_map_iff in Hr as [k [<- Hk]]. apply nodup_In in Hk.
  split; [reflexivity|]. split; [reflexivity|].
  destruct (interval_of_feature_days clean k Hk) as [first [H1 [H2 H3]]].
  exists first. simpl di_customer_id. auto.
Qed.

Lemma day_intervals_target_and_feature_days_witness :
  In (mkInterval (Some 17850) (Some 91) (Some 83)) (day_intervals scenario_clean) /\
  exists first : date,
    In first (map order_date (orders_of_key (Some 17850) scenario_clean)) /\
    (forall o, In o scenario_clean -> order_customer_id o = Some 17850 ->
               first <= order_date o) /\
    Some 83 = Some (DATE_DIFF (DATE 2011 9 1) first).
Proof.
  split; [vm_compute; left; reflexivity|].
  apply (day_intervals_target_and_feature_days scenario_clean
           (mkInterval (Some 17850) (Some 91) (Some 83))).
  vm_compute; left; reflexivity.
Defined.

(** Every customer of the clean table has a row in [day_intervals], and no
    key has two. *)
Lemma day_intervals_one_row_per_customer (clean : list DailyOrder) :
  NoDup (map di_customer_id (day_intervals clean)) /\
  forall o, In o clean ->
    In (order_customer_id o) (map di_customer_id (day_intervals clean)).
Proof.
  rewrite day_intervals_keys. split; [apply NoDup_nodup|].
  intros o Ho. apply nodup_In. now apply in_map.
Qed.

(** C4. The ratio term of the predicted value divides the number of joined
    rows with a [target_days] by the number of joined rows with a
    [feature_days].  With one ML row per customer, and [day_intervals]
    holding one row per customer of the clean table, both counts are 1 in the
    group of every customer, for both joins: the ratio term is 1 whatever the
    day intervals are. *)
Theorem ratio_term_counts_rows (k : join_kind) (ml : list CustomerFeatureRecord)
    (clean : list DailyOrder) (m : CustomerFeatureRecord) :
  NoDup (map customer_id ml) ->
  In m ml ->
  In (Some (customer_id m)) (map order_customer_id clean) ->
  let g := group_of (customer_id m) (join k ml (day_intervals clean)) in
  ratio_term g =
    SAFE_DIVIDE (COUNT (map joined_target_days g)) (COUNT (map joined_feature_days g)) /\
  length g = 1%nat /\
  COUNT (map joined_target_days g) = 1 /\
  COUNT (map joined_feature_days g) = 1 /\
  ratio_term g = Some 1%Q.
Proof.
  intros Hnd Hin Hclean g. subst g.
  rewrite (group_single k ml clean m Hnd Hin Hclean).
  destruct (interval_of_feature_days clean (Some (customer_id m)) Hclean)
    as [first [_ [_ Hfd]]].
  unfold ratio_term, COUNT, joined_target_days, joined_feature_days.
  cbn [map snd length non_null]. rewrite Hfd.
  cbn [target_days interval_of non_null length].
  repeat split; reflexivity.
Qed.

Lemma ratio_term_counts_rows_witness :
  let g := group_of 17850 (join LEFT_JOIN scenario_ml (day_intervals scenario_clean)) in
  ratio_term g =
    SAFE_DIVIDE (COUNT (map joined_target_days g)) (COUNT (map joined_feature_days g)) /\
  length g = 1%nat /\
  COUNT (map joined_target_days g) = 1 /\
  COUNT (map joined_feature_days g) = 1 /\
  ratio_term g = Some 1%Q.
Proof.
  apply (ratio_term_counts_rows LEFT_JOIN scenario_ml scenario_clean
           (mkFeatures 17850 (Some "United Kingdom"%string) 2 (12 # 2) (120 # 2) 83 12 160
              (Some "TRAIN"%string))).
  - vm_compute. constructor; [intros [] | constructor].
  - vm_compute. left; reflexivity.
  - vm_compute. left; reflexivity.
Defined.

(** The value that a single-row group yields is twice the customer's average
    purchase revenue: the purchase count and the day intervals of the row do
    not enter it. *)
Lemma predicted_value_single_row (m : CustomerFeatureRecord) (d : day_interval) :
  target_days d <> None -> feature_days d <> None ->
  exists v, predicted_value [(m, Some d)] = Some v /\
            (v == 2 * avg_purchase_revenue m)%Q.
Proof.
  intros Ht Hf.
  destruct (target_days d) as [t|] eqn:Et; [|congruence].
  destruct (feature_days d) as [f|] eqn:Ef; [|congruence].
  unfold predicted_value, ratio_term, COUNT, AVG, joined_target_days, joined_feature_days.
  cbn [map snd fst non_null length]. rewrite Et, Ef.
  cbn [non_null length Qsum fold_right lift2 Z.of_nat Pos.of_succ_nat SAFE_DIVIDE Z.eqb].
  eexists; split; [reflexivity|].
  field.
Qed.

(** Under the conditions of C4 both queries predict twice the average
    purchase revenue for every customer. *)
Lemma predicted_value_twice_average (k : join_kind) (ml : list CustomerFeatureRecord)
    (clean : list DailyOrder) (m : CustomerFeatureRecord) :
  NoDup (map customer_id ml) ->
  In m ml ->
  In (Some (customer_id m)) (map order_customer_id clean) ->
  exists v,
    predicted_value (group_of (customer_id m) (join k ml (day_intervals clean))) = Some v /\
    (v == 2 * avg_purchase_revenue m)%Q.
Proof.
  intros Hnd Hin Hclean. rewrite (group_single k ml clean m Hnd Hin Hclean).
  destruct (interval_of_feature_days clean (Some (customer_id m)) Hclean)
    as [first [_ [_ Hfd]]].
  apply predicted_value_single_row; [discriminate | rewrite Hfd; discriminate].
Qed.

(** C9. When every customer of the ML table has a row in [day_intervals], the
    query with the LEFT JOIN and the query with the INNER JOIN build the same
    [predicted_clv]: the same customers with the same predicted and target
    values. *)
Theorem left_join_and_inner_join_agree (ml : list CustomerFeatureRecord)
    (clean : list DailyOrder) :
  (forall m, In m ml ->
     In (Some (customer_id m)) (map di_customer_id (day_intervals clean))) ->
  predicted_clv LEFT_JOIN ml clean = predicted_clv INNER_JOIN ml clean.
Proof.
  intros Hall.
  assert (Hjoin : join LEFT_JOIN ml (day_intervals clean) =
                  join INNER_JOIN ml (day_intervals clean)).
  { unfold join. induction ml as [|m ml IH]; [reflexivity|].
    cbn [flat_map]. rewrite IH by (intros x Hx; apply Hall; now right).
    f_equal. unfold join_row.
    pose proof (partners_not_nil m _ (Hall m (or_introl eq_refl))) as Hp.
    destruct (partners m (day_intervals clean)); [congruence | reflexivity]. }
  unfold predicted_clv. now rewrite Hjoin.
Qed.

Lemma left_join_and_inner_join_agree_witness :
  predicted_clv LEFT_JOIN scenario_ml scenario_clean =
  predicted_clv INNER_JOIN scenario_ml scenario_clean.
Proof.
  apply (left_join_and_inner_join_agree scenario_ml scenario_clean).
  intros m Hm. vm_compute in Hm. destruct Hm as [<- | []].
  vm_compute. left; reflexivity.
Defined.

(** Without a row in [day_intervals] the two queries differ: the LEFT JOIN
    keeps the customer with a NULL predicted value, the INNER JOIN drops
    the customer. *)
Lemma left_join_keeps_unmatched_customer :
  predicted_clv LEFT_JOIN boundary_ml [] = [mkPrediction 12347 None (Some 60%Q)] /\
  predicted_clv INNER_JOIN boundary_ml [] = [].
Proof. split; reflexivity. Qed.

(** C1. At the scenario of the design document (two purchases of mean revenue
    60, first purchase 83 days before the end of the feature window, target
    window of 91 days) both queries predict 120, twice the mean revenue, not
    60 x 2 x (1 + 91 / 83). *)
Theorem baseline_prediction_at_scenario :
  map feature_days (day_intervals scenario_clean) = [Some 83] /\
  map target_days (day_intervals scenario_clean) = [Some 91] /\
  map n_purchases scenario_ml = [2] /\
  map avg_purchase_revenue scenario_ml = [(120 # 2)%Q] /\
  map predicted_monetary_value_3M (predicted_clv LEFT_JOIN scenario_ml scenario_clean)
    = [Some (240 # 2)%Q] /\
  map predicted_monetary_value_3M (baseline scenario_ml scenario_clean)
    = [Some (240 # 2)%Q] /\
  (240 # 2 == 120)%Q /\
  (documented_value (120 # 2) 2 91 83 == 20880 # 83)%Q /\
  ~ (240 # 2 == documented_value (120 # 2) 2 91 83)%Q.
Proof.
  repeat split; try reflexivity.
  vm_compute. discriminate.
Qed.

(** On an ML table written by hand to hold a customer whose first order is
    on 2011-09-01, with [feature_days = 0], the LEFT JOIN query gives the
    customer a predicted value, 120, twice the mean revenue of 60, and the
    customer's residual enters the three averages: [SAFE_DIVIDE] sees row
    counts, not [feature_days].  The preparation never writes such a row. *)
Theorem boundary_customer_enters_metrics :
  day_intervals boundary_clean = [mkInterval (Some 12347) (Some 91) (Some 0)] /\
  predicted_clv LEFT_JOIN boundary_ml boundary_clean
    = [mkPrediction 12347 (Some 120%Q) (Some 60%Q)] /\
  map residual (predicted_clv LEFT_JOIN boundary_ml boundary_clean)
    = [Some (Q2R 120 - Q2R 60)%R] /\
  mean_absolute_error (predicted_clv LEFT_JOIN boundary_ml boundary_clean)
    = Some (Rmean [Rabs (Q2R 120 - Q2R 60)]) /\
  MAE (baseline_query boundary_ml boundary_clean) <> None.
Proof.
  assert (H : predicted_clv LEFT_JOIN boundary_ml boundary_clean
              = [mkPrediction 12347 (Some 120%Q) (Some 60%Q)]) by reflexivity.
  split; [reflexivity|]. split; [exact H|].
  unfold baseline_query, baseline_metrics, mean_absolute_error. rewrite H.
  split; [reflexivity|]. split; [reflexivity|]. discriminate.
Qed.

(** The guard that the queries do have: a customer without a row in
    [day_intervals] gets a NULL predicted value under the LEFT JOIN, and the
    averages skip the customer. *)
Lemma unmatched_customer_skipped :
  map residual (predicted_clv LEFT_JOIN boundary_ml []) = [None] /\
  baseline_query boundary_ml [] = mkMetrics None None None.
Proof. split; reflexivity. Qed.

(** ** Rounding and the means of the metrics query *)

Open Scope R_scope.


Lemma pow10_pos (n : nat) : 0 < 10 ^ n.
Proof. apply pow_lt. lra. Qed.



Lemma non_null_option_map {A B} (f : A -> B) (l : list (option A)) :
  non_null (map (option_map f) l) = map f (non_null l).
Proof.
  induction l as [|[x|] l IH]; simpl; [reflexivity | now rewrite IH | exact IH].
Qed.




(** The residuals that enter the averages: the rows where either value is
    NULL are skipped. *)
Lemma mean_errors_over_residuals (ps : list prediction) :
  non_null (map residual ps) <> [] ->
  mean_absolute_error ps = Some (Rmean (map Rabs (non_null (map residual ps)))) /\
  mean_squared_error ps = Some (Rmean (map (fun x => x ^ 2) (non_null (map residual ps)))).
Proof.
  intros Hne. unfold mean_absolute_error, mean_squared_error, AVG_R.
  rewrite <- !(map_map residual (option_map _)), !non_null_option_map.
  destruct (non_null (map residual ps)) as [|e es]; [congruence|].
  split; reflexivity.
Qed.



(** Without any residual the three metrics are NULL. *)
Lemma baseline_metrics_null (ps : list prediction) :
  non_null (map residual ps) = [] ->
  baseline_metrics ps = mkMetrics None None None.
Proof.
  intros Hnil. unfold baseline_metrics, mean_absolute_error, mean_squared_error, AVG_R.
  rewrite <- !(map_map residual (option_map _)), !non_null_option_map, Hnil.
  reflexivity.
Qed.

(** ** The custom metric *)

Lemma square_sub_swap (a b : tensor) :
  tf_square (zip_with Rminus a b) = tf_square (zip_with Rminus b a).
Proof.
  unfold tf_square, zip_with. revert b.
  induction a as [|x a IH]; intros [|y b]; simpl; try reflexivity.
  rewrite IH. f_equal. ring.
Qed.

Lemma square_sub_length (a b : tensor) :
  length a = length b -> length (tf_square (zip_with Rminus a b)) = length a.
Proof.
  intros H. unfold tf_square, zip_with.
  rewrite !length_map, length_combine, <- H. apply Nat.min_id.
Qed.

(** C10, as the code has it: on two vectors of equal length that are not
    empty, [rmse] is the square root of the mean of the squared differences,
    it does not change when the two arguments are swapped, and it is not
    negative. *)
Theorem rmse_on_nonempty_vectors (y_true y_pred : tensor) :
  length y_true = length y_pred ->
  y_true <> [] ->
  rmse y_true y_pred =
    Scalar (sqrt (Rmean (zip_with (fun p t => (p - t) * (p - t)) y_pred y_true))) /\
  rmse y_true y_pred = rmse y_pred y_true /\
  exists v, rmse y_true y_pred = Scalar v /\ 0 <= v.
Proof.
  intros Hlen Hne.
  assert (Hrm : forall a b : tensor, length a = length b -> a <> [] ->
            rmse a b = Scalar (sqrt (Rmean (tf_square (zip_with Rminus b a))))).
  { intros a b Hab Ha. unfold rmse, tf_sub.
    rewrite <- Hab, Nat.eqb_refl.
    pose proof (square_sub_length b a (eq_sym Hab)) as Hl.
    unfold tf_reduce_mean.
    destruct (tf_square (zip_with Rminus b a)) as [|e es] eqn:E; [|reflexivity].
    destruct a; [congruence|]. rewrite <- Hab in Hl. discriminate. }
  assert (Hne' : y_pred <> []).
  { destruct y_pred; [|discriminate]. destruct y_true; [congruence | discriminate]. }
  rewrite (Hrm y_true y_pred Hlen Hne), (Hrm y_pred y_true (eq_sym Hlen) Hne').
  split; [|split].
  - unfold tf_square, zip_with. now rewrite map_map.
  - now rewrite square_sub_swap.
  - eexists. split; [reflexivity|]. apply sqrt_pos.
Qed.

Lemma rmse_on_nonempty_vectors_witness :
  rmse [3; 0] [0; 4] =
    Scalar (sqrt (Rmean (zip_with (fun p t => (p - t) * (p - t)) [0; 4] [3; 0]))) /\
  rmse [3; 0] [0; 4] = rmse [0; 4] [3; 0] /\
  exists v, rmse [3; 0] [0; 4] = Scalar v /\ 0 <= v.
Proof.
  apply (rmse_on_nonempty_vectors [3; 0] [0; 4]); [reflexivity | discriminate].
Defined.

(** C10, as stated, fails on the empty vectors: the mean of no element is
    NaN, so [rmse] yields no number, let alone one that is not negative. *)
Lemma rmse_of_empty_vectors :
  length (@nil R) = length (@nil R) /\
  rmse [] [] = NaN /\
  ~ (exists v, rmse [] [] = Scalar v /\ 0 <= v).
Proof.
  split; [reflexivity|]. split; [reflexivity|].
  intros [v [H _]]. discriminate H.
Qed.

(** ** Daily aggregation *)

Open Scope Z_scope.

Lemma Permutation_filter_keep {A} (p : A -> bool) (l l' : list A) :
  Permutation l l' -> Permutation (filter p l) (filter p l').
Proof.
  induction 1 as [| x l l' _ IH | x y l | l l' l'' _ IH1 _ IH2]; simpl.
  - constructor.
  - destruct (p x); [now constructor | exact IH].
  - destruct (p x), (p y); try apply Permutation_refl. apply perm_swap.
  - now transitivity (filter p l').
Qed.

Lemma Zsum_Permutation (l l' : list Z) : Permutation l l' -> Zsum l = Zsum l'.
Proof.
  unfold Zsum. induction 1; simpl; lia.
Qed.

Lemma Qsum_Permutation (l l' : list Q) : Permutation l l' -> (Qsum l == Qsum l')%Q.
Proof.
  unfold Qsum.
  induction 1 as [| x l l' _ IH | x y l | l l' l'' _ IH1 _ IH2]; simpl.
  - reflexivity.
  - now rewrite IH.
  - ring.
  - now rewrite IH1.
Qed.

(** The order of the lines does not change the totals of a group. *)
Lemma daily_order_Permutation (k : order_key) (raw raw' : list RawTransaction) :
  Permutation raw raw' ->
  total_quantity (daily_order k raw) = total_quantity (daily_order k raw') /\
  total_revenue (daily_order k raw) = total_revenue (daily_order k raw').
Proof.
  intros Hp. unfold daily_order; simpl.
  pose proof (Permutation_filter_keep
                (fun t => if order_key_eq_dec (raw_key t) k then true else false)
                _ _ Hp) as Hg.
  fold (lines_of_key k raw) in Hg. fold (lines_of_key k raw') in Hg.
  split.
  - apply Zsum_Permutation. now apply Permutation_map.
  - apply Qred_complete, Qsum_Permutation. now apply Permutation_map.
Qed.

Lemma daily_order_key (k : order_key) (raw : list RawTransaction) :
  (order_customer_id (daily_order k raw), order_date (daily_order k raw)) = k.
Proof. now destruct k. Qed.

(** Looking a group up among the daily orders built for the keys [ks]. *)
Lemma find_daily_order (k0 : order_key) (raw : list RawTransaction) (ks : list order_key) :
  find (fun o => if order_key_eq_dec (order_customer_id o, order_date o) k0
                 then true else false)
       (map (fun k => daily_order k raw) ks)
  = if in_dec order_key_eq_dec k0 ks then Some (daily_order k0 raw) else None.
Proof.
  induction ks as [|k ks IH]; [reflexivity|].
  cbn [map find]. rewrite daily_order_key.
  destruct (order_key_eq_dec k k0) as [->|Hne].
  - destruct (in_dec order_key_eq_dec k0 (k0 :: ks)) as [_|Hn]; [reflexivity|].
    exfalso. apply Hn. now left.
  - rewrite IH.
    destruct (in_dec order_key_eq_dec k0 ks) as [Hi|Hi];
      destruct (in_dec order_key_eq_dec k0 (k :: ks)) as [Hj|Hj]; try reflexivity.
    + exfalso. apply Hj. now right.
    + exfalso. destruct Hj as [Hj|Hj]; [congruence | contradiction].
Qed.

(** C8. Daily aggregation does not depend on the order of the raw lines: a
    permutation of the lines yields the same groups, each with the same total
    quantity and the same total revenue. *)
Theorem daily_aggregation_order_independent (raw raw' : list RawTransaction) :
  Permutation raw raw' ->
  forall (c : option Z) (d : date),
    daily_totals (daily_aggregation raw) c d = daily_totals (daily_aggregation raw') c d.
Proof.
  intros Hp c d. unfold daily_totals, daily_aggregation.
  rewrite !find_daily_order.
  destruct (daily_order_Permutation (c, d) raw raw' Hp) as [Hq Hr].
  destruct (in_dec order_key_eq_dec (c, d) (nodup order_key_eq_dec (map raw_key raw)))
    as [Hi|Hi];
    destruct (in_dec order_key_eq_dec (c, d) (nodup order_key_eq_dec (map raw_key raw')))
    as [Hj|Hj]; cbn [option_map].
  - now rewrite Hq, Hr.
  - exfalso. apply Hj. apply nodup_In. apply nodup_In in Hi.
    eapply Permutation_in; [apply Permutation_map; exact Hp | exact Hi].
  - exfalso. apply Hi. apply nodup_In. apply nodup_In in Hj.
    eapply Permutation_in; [apply Permutation_map, Permutation_sym; exact Hp | exact Hj].
  - reflexivity.
Qed.

Lemma daily_aggregation_order_independent_witness :
  daily_totals (daily_aggregation scenario_raw) (Some 17850) (DATE 2011 6 10)
  = daily_totals (daily_aggregation (rev scenario_raw)) (Some 17850) (DATE 2011 6 10).
Proof.
  apply (daily_aggregation_order_independent scenario_raw (rev scenario_raw)).
  apply Permutation_rev.
Defined.

(** The country of a group is read off its first line, so it can change
    with the order of the lines; the totals cannot. *)
Example daily_totals_scenario :
  daily_totals (daily_aggregation scenario_raw) (Some 17850) (DATE 2011 6 10)
  = Some (5, 50%Q).
Proof. reflexivity. Qed.

(** ** Windowed features *)

Lemma Qsum_nonneg (l : list Q) :
  (forall q, In q l -> (0 <= q)%Q) -> (0 <= Qsum l)%Q.
Proof.
  unfold Qsum. induction l as [|x l IH]; intros H; simpl.
  - apply Qle_refl.
  - replace 0%Q with (0 + 0)%Q by reflexivity.
    apply Qplus_le_compat; [apply H; now left | apply IH; intros q Hq; apply H; now right].
Qed.

Lemma Qpositive_nonneg (q : Q) : Qpositive q = true -> (0 <= q)%Q.
Proof.
  unfold Qpositive. intros H. apply negb_true_iff in H.
  destruct (Qlt_le_dec 0 q) as [Hlt|Hle]; [now apply Qlt_le_weak|].
  apply Qle_bool_iff in Hle. congruence.
Qed.

Lemma validity_filter_revenue (orders : list DailyOrder) (o : DailyOrder) :
  In o (validity_filter orders) ->
  order_customer_id o <> None /\ 0 < total_quantity o /\ (0 <= total_revenue o)%Q.
Proof.
  unfold validity_filter. rewrite filter_In. intros [_ H].
  apply andb_true_iff in H as [H Hr]. apply andb_true_iff in H as [Hc Hq].
  split; [destruct (order_customer_id o); [discriminate | discriminate]|].
  split; [now apply Z.ltb_lt | now apply Qpositive_nonneg].
Qed.

(** The record of a customer, spelled out. *)
Lemma customer_features_Some (w : window) (orders : list DailyOrder) (c : Z)
    (r : CustomerFeatureRecord) :
  customer_features w orders c = Some r ->
  exists o rest,
    filter (in_feature_window w) (orders_of_key (Some c) orders) = o :: rest /\
    customer_id r = c /\
    customer_age r =
      DATE_DIFF (feature_end w) (fold_right Z.min (order_date o) (map order_date rest)) /\
    days_since_last_purchase r =
      DATE_DIFF (feature_end w) (fold_right Z.max (order_date o) (map order_date rest)) /\
    target_monetary_value_3M r =
      Qsum (map total_revenue
              (filter (in_study_window w) (orders_of_key (Some c) orders))).
Proof.
  unfold customer_features.
  destruct (filter (in_feature_window w) (orders_of_key (Some c) orders)) as [|o rest];
    [discriminate|].
  intros H. injection H as <-. exists o, rest. repeat split; reflexivity.
Qed.

(** C7. On the orders that pass the validity filter, every record of the
    windowed computation has a non-negative [days_since_last_purchase], a
    [customer_age] at least as large, and a non-negative target value. *)
Theorem feature_record_invariants (w : window) (orders : list DailyOrder)
    (r : CustomerFeatureRecord) :
  In r (windowed_features w (validity_filter orders)) ->
  0 <= days_since_last_purchase r /\
  days_since_last_purchase r <= customer_age r /\
  (0 <= target_monetary_value_3M r)%Q.
Proof.
  unfold windowed_features. intros Hr.
  apply in_flat_map in Hr as [c [_ Hr]].
  destruct (customer_features w (validity_filter orders) c) as [r'|] eqn:Hc;
    [|contradiction].
  destruct Hr as [<- | []].
  destruct (customer_features_Some _ _ _ _ Hc) as [o [rest [Hfw [_ [Hage [Hlast Htarget]]]]]].
  rewrite Hage, Hlast, Htarget. unfold DATE_DIFF.
  pose proof (fold_max_in (order_date o) (map order_date rest)) as Hmax.
  pose proof (fold_max_ge (order_date o) (map order_date rest) (order_date o)
                (or_introl eq_refl)) as Hge.
  pose proof (fold_min_le (order_date o) (map order_date rest) (order_date o)
                (or_introl eq_refl)) as Hle.
  assert (Hwin : forall x, In x (order_date o :: map order_date rest) -> x < feature_end w).
  { intros x Hx. change (In x (map order_date (o :: rest))) in Hx.
    apply in_map_iff in Hx as [o' [<- Ho']]. rewrite <- Hfw in Ho'.
    apply filter_In in Ho' as [_ Hin]. unfold in_feature_window in Hin.
    apply andb_true_iff in Hin as [_ Hin]. now apply Z.ltb_lt. }
  specialize (Hwin _ Hmax).
  split; [lia|]. split; [lia|].
  apply Qsum_nonneg. intros q Hq.
  apply in_map_iff in Hq as [o' [<- Ho']].
  apply filter_In in Ho' as [Ho' _]. apply orders_of_key_in in Ho' as [Ho' _].
  now apply validity_filter_revenue in Ho'.
Qed.

Lemma feature_record_invariants_witness :
  In (mkFeatures 17850 (Some "United Kingdom"%string) 2 (12 # 2) (120 # 2) 83 12 160 None)
     (windowed_features scenario_window (validity_filter (daily_aggregation scenario_raw))) /\
  0 <= 12 /\ 12 <= 83 /\ (0 <= 160)%Q.
Proof.
  split; [vm_compute; left; reflexivity|].
  apply (feature_record_invariants scenario_window (daily_aggregation scenario_raw)
           (mkFeatures 17850 (Some "United Kingdom"%string) 2 (12 # 2) (120 # 2) 83 12 160 None)).
  vm_compute; left; reflexivity.
Defined.

(** The scenario of the design document, through the whole preparation. *)
Example scenario_features :
  scenario_ml =
  [ mkFeatures 17850 (Some "United Kingdom"%string) 2 (12 # 2) (120 # 2) 83 12 160
      (Some "TRAIN"%string) ].
Proof. reflexivity. Qed.

(** ** Split assignment and the three subsets *)

Lemma select_split_In (s : string) (clv : list CustomerFeatureRecord)
    (r : CustomerFeatureRecord) :
  In r (select_split s clv) <-> In r clv /\ data_split r = Some s.
Proof.
  unfold select_split. rewrite filter_In.
  destruct (data_split r) as [x|]; split; intros [H1 H2]; split; auto.
  - apply String.eqb_eq in H2. now subst.
  - injection H2 as ->. apply String.eqb_refl.
  - discriminate.
  - discriminate.
Qed.

(** Whatever the table holds, no row is in two of the three subsets. *)
Lemma subsets_share_no_row (clv : list CustomerFeatureRecord) (r : CustomerFeatureRecord) :
  ~ (In r (clv_train clv) /\ In r (clv_dev clv)) /\
  ~ (In r (clv_train clv) /\ In r (clv_test clv)) /\
  ~ (In r (clv_dev clv) /\ In r (clv_test clv)).
Proof.
  unfold clv_train, clv_dev, clv_test. rewrite !select_split_In.
  repeat split; intros [[_ H1] [_ H2]]; rewrite H1 in H2; discriminate.
Qed.

Section SplitProperties.

Variable fingerprint : Z -> Z.

Lemma assign_split_cases (c : Z) :
  assign_split fingerprint c = "TRAIN"%string \/
  assign_split fingerprint c = "VALIDATE"%string \/
  assign_split fingerprint c = "TEST"%string.
Proof.
  unfold assign_split.
  destruct (Z.abs (fingerprint c) mod 100 <? 70); [now left|].
  destruct (Z.abs (fingerprint c) mod 100 <? 85); [right; now left | right; now right].
Qed.

Lemma split_assignment_In (t : list CustomerFeatureRecord) (r : CustomerFeatureRecord) :
  In r (split_assignment fingerprint t) ->
  data_split r = Some (assign_split fingerprint (customer_id r)).
Proof.
  unfold split_assignment. intros H. apply in_map_iff in H as [r0 [<- _]]. reflexivity.
Qed.

(** C6. After split assignment every row of the ML table carries the split
    of its customer, which depends on the customer identifier alone; every
    row is in exactly one of the three subsets; no customer has rows in two
    subsets; and assigning again changes nothing. *)
Theorem split_assignment_is_a_partition (t : list CustomerFeatureRecord) :
  let clv := split_assignment fingerprint t in
  (forall r, In r clv -> data_split r = Some (assign_split fingerprint (customer_id r))) /\
  (forall r, In r clv ->
     (In r (clv_train clv) /\ ~ In r (clv_dev clv) /\ ~ In r (clv_test clv)) \/
     (~ In r (clv_train clv) /\ In r (clv_dev clv) /\ ~ In r (clv_test clv)) \/
     (~ In r (clv_train clv) /\ ~ In r (clv_dev clv) /\ In r (clv_test clv))) /\
  (forall a b, In a (clv_train clv) -> In b (clv_dev clv) -> customer_id a <> customer_id b) /\
  (forall a b, In a (clv_train clv) -> In b (clv_test clv) -> customer_id a <> customer_id b) /\
  (forall a b, In a (clv_dev clv) -> In b (clv_test clv) -> customer_id a <> customer_id b) /\
  (forall t' r r', In r clv -> In r' (split_assignment fingerprint t') ->
     customer_id r = customer_id r' -> data_split r = data_split r') /\
  split_assignment fingerprint clv = clv.
Proof.
  intros clv.
  assert (Hsplit : forall r, In r clv ->
            data_split r = Some (assign_split fingerprint (customer_id r)))
    by (intros r Hr; now apply split_assignment_In in Hr).
  assert (Hdisj : forall s1 s2 a b, s1 <> s2 ->
            In a (select_split s1 clv) -> In b (select_split s2 clv) ->
            customer_id a <> customer_id b).
  { intros s1 s2 a b Hne Ha Hb Heq.
    apply select_split_In in Ha as [Ha Hsa]. apply select_split_In in Hb as [Hb Hsb].
    rewrite (Hsplit a Ha) in Hsa. rewrite (Hsplit b Hb), <- Heq in Hsb. congruence. }
  split; [exact Hsplit|]. split; [|split; [|split; [|split; [|split]]]].
  - intros r Hr. specialize (Hsplit r Hr).
    unfold clv_train, clv_dev, clv_test. rewrite !select_split_In.
    destruct (assign_split_cases (customer_id r)) as [E | [E | E]]; rewrite E in Hsplit.
    + left. rewrite Hsplit. repeat split; auto; intros [_ H]; discriminate.
    + right; left. rewrite Hsplit. repeat split; auto; intros [_ H]; discriminate.
    + right; right. rewrite Hsplit. repeat split; auto; intros [_ H]; discriminate.
  - intros a b. apply Hdisj. discriminate.
  - intros a b. apply Hdisj. discriminate.
  - intros a b. apply Hdisj. discriminate.
  - intros t' r r' Hr Hr' Heq. rewrite (Hsplit r Hr).
    rewrite (split_assignment_In t' r' Hr'). now rewrite Heq.
  - subst clv. unfold split_assignment. rewrite map_map. apply map_ext.
    intros r. reflexivity.
Qed.

End SplitProperties.

Lemma split_assignment_is_a_partition_witness :
  let clv := split_assignment (fun c => c) unsplit_ml in
  (forall r, In r clv -> data_split r = Some (assign_split (fun c => c) (customer_id r))) /\
  (forall r, In r clv ->
     (In r (clv_train clv) /\ ~ In r (clv_dev clv) /\ ~ In r (clv_test clv)) \/
     (~ In r (clv_train clv) /\ In r (clv_dev clv) /\ ~ In r (clv_test clv)) \/
     (~ In r (clv_train clv) /\ ~ In r (clv_dev clv) /\ In r (clv_test clv))) /\
  (forall a b, In a (clv_train clv) -> In b (clv_dev clv) -> customer_id a <> customer_id b) /\
  (forall a b, In a (clv_train clv) -> In b (clv_test clv) -> customer_id a <> customer_id b) /\
  (forall a b, In a (clv_dev clv) -> In b (clv_test clv) -> customer_id a <> customer_id b) /\
  (forall t' r r', In r clv -> In r' (split_assignment (fun c => c) t') ->
     customer_id r = customer_id r' -> data_split r = data_split r') /\
  split_assignment (fun c => c) clv = clv.
Proof.
  exact (split_assignment_is_a_partition (fun c => c) unsplit_ml).
Defined.

(** The three customers of the example land in the three subsets. *)
Example split_of_three_customers :
  map customer_id (clv_train (split_assignment (fun c => c) unsplit_ml)) = [12346] /\
  map customer_id (clv_dev (split_assignment (fun c => c) unsplit_ml)) = [12375] /\
  map customer_id (clv_test (split_assignment (fun c => c) unsplit_ml)) = [12390].
Proof. repeat split; reflexivity. Qed.

(** ** The joins, customer by customer *)

Lemma has_orders_true (clean : list DailyOrder) (c : Z) :
  has_orders clean c = true <-> In (Some c) (map order_customer_id clean).
Proof.
  unfold has_orders.
  destruct (in_dec key_eq_dec (Some c) (map order_customer_id clean)); split;
    intros; auto; discriminate.
Qed.

Lemma has_orders_false (clean : list DailyOrder) (c : Z) :
  has_orders clean c = false <-> ~ In (Some c) (map order_customer_id clean).
Proof.
  unfold has_orders.
  destruct (in_dec key_eq_dec (Some c) (map order_customer_id clean)); split;
    intros; auto; [discriminate | contradiction].
Qed.

Lemma join_row_matched (k : join_kind) (clean : list DailyOrder) (m : CustomerFeatureRecord) :
  has_orders clean (customer_id m) = true ->
  join_row k (day_intervals clean) m =
  [(m, Some (interval_of clean (Some (customer_id m))))].
Proof.
  intros H. apply has_orders_true in H. unfold join_row.
  rewrite (partners_day_intervals m clean H). destruct k; reflexivity.
Qed.

Lemma join_row_unmatched (k : join_kind) (clean : list DailyOrder) (m : CustomerFeatureRecord) :
  has_orders clean (customer_id m) = false ->
  join_row k (day_intervals clean) m =
  match k with LEFT_JOIN => [(m, None)] | INNER_JOIN => [] end.
Proof.
  intros H. apply has_orders_false in H. unfold join_row.
  rewrite partners_nil; [destruct k; reflexivity|].
  rewrite day_intervals_keys. intros Hin. apply H. now apply nodup_In in Hin.
Qed.

(** The joined rows of ML rows that all belong to customer [c]. *)
Lemma join_of_customer (k : join_kind) (clean : list DailyOrder) (c : Z)
    (rows : list CustomerFeatureRecord) :
  (forall m, In m rows -> customer_id m = c) ->
  join k rows (day_intervals clean) =
  if has_orders clean c
  then map (fun m => (m, Some (interval_of clean (Some c)))) rows
  else match k with
       | LEFT_JOIN => map (fun m => (m, None)) rows
       | INNER_JOIN => []
       end.
Proof.
  unfold join. induction rows as [|m rows IH]; intros Hc.
  - destruct (has_orders clean c), k; reflexivity.
  - cbn [flat_map]. rewrite IH by (intros x Hx; apply Hc; now right).
    pose proof (Hc m (or_introl eq_refl)) as Hm.
    destruct (has_orders clean c) eqn:Hh.
    + rewrite join_row_matched by (now rewrite Hm). now rewrite Hm.
    + rewrite join_row_unmatched by (now rewrite Hm). destruct k; reflexivity.
Qed.

(** The group of customer [c] in the joined table. *)
Lemma group_of_customer (k : join_kind) (ml : list CustomerFeatureRecord)
    (clean : list DailyOrder) (c : Z) :
  group_of c (join k ml (day_intervals clean)) =
  let rows := filter (fun m => customer_id m =? c) ml in
  if has_orders clean c
  then map (fun m => (m, Some (interval_of clean (Some c)))) rows
  else match k with
       | LEFT_JOIN => map (fun m => (m, None)) rows
       | INNER_JOIN => []
       end.
Proof.
  rewrite group_of_join. apply join_of_customer.
  intros m Hm. apply filter_In in Hm as [_ Hm]. now apply Z.eqb_eq.
Qed.

Lemma join_customers (k : join_kind) (ml : list CustomerFeatureRecord)
    (clean : list DailyOrder) :
  map (fun j => customer_id (fst j)) (join k ml (day_intervals clean)) =
  match k with
  | LEFT_JOIN => map customer_id ml
  | INNER_JOIN => filter (has_orders clean) (map customer_id ml)
  end.
Proof.
  unfold join, joined. induction ml as [|m ml IH].
  - destruct k; reflexivity.
  - cbn [flat_map]. rewrite map_app, IH.
    destruct (has_orders clean (customer_id m)) eqn:Hh.
    + rewrite (join_row_matched k clean m Hh).
      destruct k; cbn [map filter fst app]; [reflexivity | now rewrite Hh].
    + rewrite (join_row_unmatched k clean m Hh).
      destruct k; cbn [map filter fst app]; [reflexivity | now rewrite Hh].
Qed.

(** What the aggregates make of a group of matched rows. *)
Lemma aggregates_of_matched_rows (rows : list CustomerFeatureRecord) (d : day_interval)
    (t f : Z) :
  rows <> [] ->
  target_days d = Some t -> feature_days d = Some f ->
  let g := map (fun m => (m, Some d)) rows in
  let n := Z.of_nat (length rows) in
  predicted_value g =
    Some (Qsum (map avg_purchase_revenue rows) / inject_Z n
          * (inject_Z n * (1 + inject_Z n / inject_Z n)))%Q /\
  SUM (map (fun j => Some (target_monetary_value_3M (fst j))) g) =
    Some (Qsum (map target_monetary_value_3M rows)).
Proof.
  intros Hne Ht Hf g n. subst g n.
  unfold predicted_value, ratio_term, COUNT, AVG, SUM, SAFE_DIVIDE.
  rewrite !map_map. cbn [fst snd]. unfold joined_target_days, joined_feature_days.
  cbn [snd]. rewrite Ht, Hf.
  rewrite (non_null_map_Some avg_purchase_revenue rows).
  rewrite (non_null_map_Some n_purchases rows).
  rewrite (non_null_map_Some target_monetary_value_3M rows).
  rewrite (non_null_map_Some (fun _ => t) rows), (non_null_map_Some (fun _ => f) rows).
  rewrite !length_map.
  destruct rows as [|r rows]; [congruence|].
  cbn [map length].
  replace (Z.of_nat (S (length rows)) =? 0) with false
    by (symmetry; apply Z.eqb_neq; lia).
  rewrite length_map. split; reflexivity.
Qed.

Lemma aggregates_of_unmatched_rows (rows : list CustomerFeatureRecord) :
  predicted_value (map (fun m => (m, None)) rows) = None.
Proof.
  unfold predicted_value, ratio_term, COUNT, SAFE_DIVIDE.
  rewrite !map_map. unfold joined_target_days, joined_feature_days. cbn [snd].
  assert (H : forall A, non_null (map (fun _ : CustomerFeatureRecord => @None A) rows) = []).
  { intros A. induction rows; simpl; auto. }
  rewrite !H. cbn [length Z.of_nat Z.eqb lift2].
  destruct (AVG _); reflexivity.
Qed.

Lemma nodup_filter {A} (dec : forall a b : A, {a = b} + {a <> b}) (p : A -> bool)
    (l : list A) :
  nodup dec (filter p l) = filter p (nodup dec l).
Proof.
  induction l as [|x l IH]; [reflexivity|].
  cbn [filter nodup].
  destruct (p x) eqn:Hp; destruct (in_dec dec x l) as [Hin|Hin].
  - cbn [nodup]. destruct (in_dec dec x (filter p l)) as [_|Hn]; [exact IH|].
    exfalso. apply Hn, filter_In. auto.
  - cbn [nodup filter]. rewrite Hp.
    destruct (in_dec dec x (filter p l)) as [Hi|_]; [|now rewrite IH].
    exfalso. apply Hin. now apply filter_In in Hi.
  - exact IH.
  - cbn [filter]. now rewrite Hp.
Qed.

Lemma predicted_clv_rows (k : join_kind) (ml : list CustomerFeatureRecord)
    (clean : list DailyOrder) :
  predicted_clv k ml clean =
  map (prediction_of k ml clean)
      (match k with
       | LEFT_JOIN => nodup Z.eq_dec (map customer_id ml)
       | INNER_JOIN => filter (has_orders clean) (nodup Z.eq_dec (map customer_id ml))
       end).
Proof.
  unfold predicted_clv. fold (prediction_of k ml clean).
  rewrite (join_customers k ml clean). destruct k; [reflexivity|].
  now rewrite nodup_filter.
Qed.

Lemma ml_rows_of_not_nil (c : Z) (ml : list CustomerFeatureRecord) :
  In c (map customer_id ml) -> ml_rows_of c ml <> [].
Proof.
  intros Hin Hnil. apply in_map_iff in Hin as [m [Hc Hm]].
  assert (H : In m (ml_rows_of c ml))
    by (apply filter_In; split; [exact Hm | now apply Z.eqb_eq]).
  rewrite Hnil in H. contradiction.
Qed.

(** The row of a customer with orders in the clean table, under both joins. *)
Lemma prediction_of_matched (k : join_kind) (ml : list CustomerFeatureRecord)
    (clean : list DailyOrder) (c : Z) :
  In c (map customer_id ml) ->
  has_orders clean c = true ->
  let rows := ml_rows_of c ml in
  let n := Z.of_nat (length rows) in
  prediction_of k ml clean c =
  {| clv_customer_id := c;
     predicted_monetary_value_3M :=
       Some (Qsum (map avg_purchase_revenue rows) / inject_Z n
             * (inject_Z n * (1 + inject_Z n / inject_Z n)))%Q;
     clv_target_monetary_value_3M := Some (Qsum (map target_monetary_value_3M rows)) |}.
Proof.
  intros Hin Hh rows n. unfold prediction_of.
  rewrite group_of_customer, Hh. cbn zeta. fold (ml_rows_of c ml). fold rows.
  pose proof (ml_rows_of_not_nil c ml Hin) as Hne. fold rows in Hne.
  apply has_orders_true in Hh.
  destruct (interval_of_feature_days clean (Some c) Hh) as [first [_ [_ Hfd]]].
  destruct (aggregates_of_matched_rows rows (interval_of clean (Some c)) _ _
              Hne eq_refl Hfd) as [Hp Ht].
  cbn zeta in Hp, Ht. fold n in Hp. now rewrite Hp, Ht.
Qed.

(** The row of a customer without orders in the clean table, under the
    LEFT JOIN. *)
Lemma prediction_of_unmatched (ml : list CustomerFeatureRecord)
    (clean : list DailyOrder) (c : Z) :
  In c (map customer_id ml) ->
  has_orders clean c = false ->
  prediction_of LEFT_JOIN ml clean c =
  {| clv_customer_id := c;
     predicted_monetary_value_3M := None;
     clv_target_monetary_value_3M :=
       Some (Qsum (map target_monetary_value_3M (ml_rows_of c ml))) |}.
Proof.
  intros Hin Hh. unfold prediction_of.
  rewrite group_of_customer, Hh. cbn zeta. fold (ml_rows_of c ml).
  rewrite aggregates_of_unmatched_rows.
  pose proof (ml_rows_of_not_nil c ml Hin) as Hne.
  unfold SUM. rewrite map_map. cbn [fst].
  rewrite (non_null_map_Some target_monetary_value_3M).
  destruct (ml_rows_of c ml); [congruence | reflexivity].
Qed.

(** ** Further properties of the baseline queries *)

(** X1. [day_intervals] holds exactly one row for every key of the clean
    table, no row for any other key, and neither [target_days] nor
    [feature_days] is NULL in any row. *)
Theorem day_intervals_one_row_per_key (clean : list DailyOrder) :
  NoDup (map di_customer_id (day_intervals clean)) /\
  (forall k, In k (map di_customer_id (day_intervals clean)) <->
             In k (map order_customer_id clean)) /\
  (forall r, In r (day_intervals clean) ->
             target_days r <> None /\ feature_days r <> None).
Proof.
  rewrite day_intervals_keys. split; [apply NoDup_nodup|]. split.
  - intros k. apply nodup_In.
  - intros r Hr. rewrite day_intervals_eq in Hr.
    apply in_map_iff in Hr as [k [<- Hk]]. apply nodup_In in Hk.
    split; [discriminate|].
    destruct (interval_of_feature_days clean k Hk) as [first [_ [_ ->]]]. discriminate.
Qed.

(** X2. [feature_days] is positive exactly for the customers with an order
    before 2011-09-01; a customer whose orders all fall on or after that day
    gets zero or a negative number, not NULL. *)
Theorem feature_days_sign (clean : list DailyOrder) (r : day_interval) (f : Z) :
  In r (day_intervals clean) ->
  feature_days r = Some f ->
  (0 < f <->
   exists o, In o clean /\ order_customer_id o = di_customer_id r /\
             order_date o < DATE 2011 9 1).
Proof.
  intros Hr Hf. rewrite day_intervals_eq in Hr.
  apply in_map_iff in Hr as [k [<- Hk]]. apply nodup_In in Hk.
  destruct (interval_of_feature_days clean k Hk) as [first [Hin [Hmin Hfd]]].
  rewrite Hfd in Hf. cbn [di_customer_id interval_of].
  remember (DATE 2011 9 1) as feature_window_end eqn:HD. clear HD.
  assert (Hf' : f = feature_window_end - first) by congruence. clear Hf Hfd. subst f.
  apply in_map_iff in Hin as [o0 [Hd0 Ho0]]. apply orders_of_key_in in Ho0 as [Ho0 Hk0].
  split.
  - intros Hpos. exists o0. split; [exact Ho0|]. split; [exact Hk0|]. lia.
  - intros [o [Ho [Hko Hlt]]]. specialize (Hmin o Ho Hko). lia.
Qed.

Lemma feature_days_sign_witness :
  (0 < 0 <->
   exists o, In o boundary_clean /\ order_customer_id o = Some 12347 /\
             order_date o < DATE 2011 9 1).
Proof.
  apply (feature_days_sign boundary_clean (mkInterval (Some 12347) (Some 91) (Some 0)) 0).
  - vm_compute. left; reflexivity.
  - reflexivity.
Defined.

(** X3. The LEFT JOIN query returns one row for every customer of the ML
    table; the INNER JOIN query returns one row for every customer of the ML
    table that has an order in the clean table, and for no other. *)
Theorem predicted_clv_customers (ml : list CustomerFeatureRecord) (clean : list DailyOrder) :
  map clv_customer_id (predicted_clv LEFT_JOIN ml clean)
    = nodup Z.eq_dec (map customer_id ml) /\
  (forall k, NoDup (map clv_customer_id (predicted_clv k ml clean))) /\
  (forall c, In c (map clv_customer_id (predicted_clv LEFT_JOIN ml clean)) <->
             In c (map customer_id ml)) /\
  (forall c, In c (map clv_customer_id (predicted_clv INNER_JOIN ml clean)) <->
             In c (map customer_id ml) /\ In (Some c) (map order_customer_id clean)).
Proof.
  assert (Hids : forall k, map clv_customer_id (predicted_clv k ml clean) =
            match k with
            | LEFT_JOIN => nodup Z.eq_dec (map customer_id ml)
            | INNER_JOIN => filter (has_orders clean) (nodup Z.eq_dec (map customer_id ml))
            end).
  { intros k. rewrite predicted_clv_rows, map_map. cbn [clv_customer_id prediction_of].
    apply map_id. }
  split; [apply (Hids LEFT_JOIN)|]. split; [|split].
  - intros k. rewrite Hids. destruct k; [apply NoDup_nodup|].
    apply NoDup_filter, NoDup_nodup.
  - intros c. rewrite (Hids LEFT_JOIN). apply nodup_In.
  - intros c. rewrite (Hids INNER_JOIN), filter_In, nodup_In, has_orders_true. reflexivity.
Qed.

(** X4. Under the LEFT JOIN the predicted value of a customer is NULL exactly
    when the customer has no order in the clean table; the target value is
    never NULL. *)
Theorem left_join_null_prediction (ml : list CustomerFeatureRecord)
    (clean : list DailyOrder) (p : prediction) :
  In p (predicted_clv LEFT_JOIN ml clean) ->
  (predicted_monetary_value_3M p = None <->
   ~ In (Some (clv_customer_id p)) (map order_customer_id clean)) /\
  clv_target_monetary_value_3M p <> None.
Proof.
  intros Hp. rewrite predicted_clv_rows in Hp.
  apply in_map_iff in Hp as [c [<- Hc]]. apply nodup_In in Hc.
  destruct (has_orders clean c) eqn:Hh.
  - rewrite (prediction_of_matched LEFT_JOIN ml clean c Hc Hh). cbn.
    apply has_orders_true in Hh. split; [|discriminate].
    split; [discriminate | contradiction].
  - rewrite (prediction_of_unmatched ml clean c Hc Hh). cbn.
    apply has_orders_false in Hh. split; [|discriminate].
    split; auto.
Qed.

Lemma left_join_null_prediction_witness :
  (@None Q = None <-> ~ In (Some 12347) (map order_customer_id (@nil DailyOrder))) /\
  Some 60%Q <> None.
Proof.
  apply (left_join_null_prediction boundary_ml [] (mkPrediction 12347 None (Some 60%Q))).
  vm_compute. left; reflexivity.
Defined.

(** X5. For a customer with orders in the clean table both queries predict
    twice the sum of [avg_purchase_revenue] over the customer's ML rows, and
    the target is the sum of [target_monetary_value_3M] over those rows:
    [n_purchases], [target_days] and [feature_days] do not change the value. *)
Theorem predicted_clv_values (k : join_kind) (ml : list CustomerFeatureRecord)
    (clean : list DailyOrder) (p : prediction) :
  In p (predicted_clv k ml clean) ->
  In (Some (clv_customer_id p)) (map order_customer_id clean) ->
  exists v : Q,
    predicted_monetary_value_3M p = Some v /\
    (v == 2 * Qsum (map avg_purchase_revenue (ml_rows_of (clv_customer_id p) ml)))%Q /\
    clv_target_monetary_value_3M p =
      Some (Qsum (map target_monetary_value_3M (ml_rows_of (clv_customer_id p) ml))).
Proof.
  intros Hp Hclean. rewrite predicted_clv_rows in Hp.
  apply in_map_iff in Hp as [c [<- Hc]].
  assert (Hc' : In c (map customer_id ml)).
  { destruct k; [|apply filter_In in Hc as [Hc _]]; now apply nodup_In in Hc. }
  cbn [clv_customer_id prediction_of] in Hclean.
  apply has_orders_true in Hclean.
  rewrite (prediction_of_matched k ml clean c Hc' Hclean). cbn.
  eexists. split; [reflexivity|]. split; [|reflexivity].
  pose proof (ml_rows_of_not_nil c ml Hc') as Hne.
  assert (Hn : ~ (inject_Z (Z.of_nat (length (ml_rows_of c ml))) == 0)%Q).
  { destruct (ml_rows_of c ml); [congruence|]. cbn [length].
    unfold Qeq. cbn. lia. }
  field. exact Hn.
Qed.

Lemma predicted_clv_values_witness :
  exists v : Q,
    Some (240 # 2)%Q = Some v /\
    (v == 2 * Qsum (map avg_purchase_revenue (ml_rows_of 17850 scenario_ml)))%Q /\
    Some 160%Q = Some (Qsum (map target_monetary_value_3M (ml_rows_of 17850 scenario_ml))).
Proof.
  apply (predicted_clv_values INNER_JOIN scenario_ml scenario_clean
           (mkPrediction 17850 (Some (240 # 2)%Q) (Some 160%Q))).
  - vm_compute. left; reflexivity.
  - vm_compute. left; reflexivity.
Defined.

(** The INNER JOIN rows are the LEFT JOIN rows with a predicted value. *)
Lemma inner_join_rows (ml : list CustomerFeatureRecord) (clean : list DailyOrder) :
  predicted_clv INNER_JOIN ml clean =
  filter (fun p => is_some (predicted_monetary_value_3M p))
         (predicted_clv LEFT_JOIN ml clean).
Proof.
  rewrite !predicted_clv_rows, filter_map_swap.
  rewrite (filter_ext_in
             (fun c => is_some (predicted_monetary_value_3M (prediction_of LEFT_JOIN ml clean c)))
             (has_orders clean)).
  - apply map_ext_in. intros c Hc. apply filter_In in Hc as [Hc Hh].
    apply nodup_In in Hc.
    now rewrite !prediction_of_matched.
  - intros c Hc. apply nodup_In in Hc.
    destruct (has_orders clean c) eqn:Hh.
    + now rewrite prediction_of_matched.
    + now rewrite prediction_of_unmatched.
Qed.

(** X6. The INNER JOIN query returns exactly the rows of the LEFT JOIN query
    whose predicted value is not NULL, with the same values, whatever the two
    tables hold; no row it returns has a NULL predicted or target value. *)
Theorem inner_join_is_left_join_without_nulls (ml : list CustomerFeatureRecord)
    (clean : list DailyOrder) :
  (forall p, In p (baseline ml clean) <->
             In p (predicted_clv LEFT_JOIN ml clean) /\
             predicted_monetary_value_3M p <> None) /\
  (forall p, In p (baseline ml clean) ->
             predicted_monetary_value_3M p <> None /\
             clv_target_monetary_value_3M p <> None).
Proof.
  unfold baseline.
  assert (Hiff : forall p, In p (predicted_clv INNER_JOIN ml clean) <->
            In p (predicted_clv LEFT_JOIN ml clean) /\
            predicted_monetary_value_3M p <> None).
  { intros p. rewrite inner_join_rows, filter_In.
    destruct (predicted_monetary_value_3M p); cbn [is_some]; split; intros [H1 H2];
      first [ discriminate H2 | now contradiction H2 | split; [exact H1|];
              first [reflexivity | discriminate] ]. }
  split; [exact Hiff|].
  intros p Hp. apply Hiff in Hp as [Hp Hs]. split; [exact Hs|].
  rewrite predicted_clv_rows in Hp. apply in_map_iff in Hp as [c [<- Hc]].
  apply nodup_In in Hc.
  destruct (has_orders clean c) eqn:Hh.
  - rewrite prediction_of_matched by assumption. discriminate.
  - rewrite prediction_of_unmatched by assumption. discriminate.
Qed.

Lemma residual_skips_null_predictions (ps : list prediction) :
  non_null (map residual (filter (fun p => is_some (predicted_monetary_value_3M p)) ps)) =
  non_null (map residual ps).
Proof.
  induction ps as [|p ps IH]; [reflexivity|].
  cbn [filter map]. unfold residual at 2.
  destruct (predicted_monetary_value_3M p) as [v|] eqn:Hv; cbn [is_some lift2].
  - cbn [map]. unfold residual at 1. rewrite Hv.
    destruct (clv_target_monetary_value_3M p); cbn [lift2 non_null]; now rewrite IH.
  - exact IH.
Qed.

(** The metrics see a table through its non-NULL residuals only. *)
Lemma baseline_metrics_of_residuals (ps ps' : list prediction) :
  non_null (map residual ps) = non_null (map residual ps') ->
  baseline_metrics ps = baseline_metrics ps'.
Proof.
  intros H. unfold baseline_metrics, mean_absolute_error, mean_squared_error, AVG_R.
  rewrite <- !(map_map residual (option_map _)), !non_null_option_map, H.
  reflexivity.
Qed.

(** X7. The metrics query yields the same MAE, MSE and RMSE whether
    [predicted_clv] is built with the LEFT JOIN or with the INNER JOIN: the
    rows that only the LEFT JOIN keeps have a NULL predicted value, which the
    averages skip. *)
Theorem metrics_same_for_both_joins (ml : list CustomerFeatureRecord)
    (clean : list DailyOrder) :
  baseline_query ml clean = baseline_metrics (baseline ml clean).
Proof.
  unfold baseline_query, baseline. apply baseline_metrics_of_residuals.
  now rewrite inner_join_rows, residual_skips_null_predictions.
Qed.

Lemma residual_of_prediction_of (k : join_kind) (ml : list CustomerFeatureRecord)
    (clean : list DailyOrder) (c : Z) :
  In c (map customer_id ml) ->
  is_some (residual (prediction_of k ml clean c)) = has_orders clean c.
Proof.
  intros Hc. destruct (has_orders clean c) eqn:Hh.
  - rewrite prediction_of_matched by assumption. destruct k; reflexivity.
  - destruct k.
    + rewrite prediction_of_unmatched by assumption. reflexivity.
    + unfold prediction_of. rewrite group_of_customer, Hh. reflexivity.
Qed.

(** X8. The metrics query returns three NULLs exactly when no customer of the
    ML table has an order in the clean table, as for an empty ML table or an
    empty clean table; otherwise none of the three is NULL. *)
Theorem baseline_query_null_iff (ml : list CustomerFeatureRecord) (clean : list DailyOrder) :
  (baseline_query ml clean = mkMetrics None None None <->
   forall m, In m ml -> ~ In (Some (customer_id m)) (map order_customer_id clean)) /\
  (baseline_query ml clean <> mkMetrics None None None ->
   MAE (baseline_query ml clean) <> None /\
   MSE (baseline_query ml clean) <> None /\
   RMSE (baseline_query ml clean) <> None).
Proof.
  assert (Hres : non_null (map residual (predicted_clv LEFT_JOIN ml clean)) = [] <->
            forall m, In m ml -> ~ In (Some (customer_id m)) (map order_customer_id clean)).
  { rewrite predicted_clv_rows, map_map. split.
    - intros Hnil m Hm Hin.
      assert (Hc : In (customer_id m) (nodup Z.eq_dec (map customer_id ml)))
        by (apply nodup_In; now apply in_map).
      apply has_orders_true in Hin.
      pose proof (residual_of_prediction_of LEFT_JOIN ml clean (customer_id m)
                    (in_map customer_id _ _ Hm)) as Hr.
      rewrite Hin in Hr.
      revert Hnil Hc Hr. generalize (nodup Z.eq_dec (map customer_id ml)).
      intros l. induction l as [|x l IH]; cbn [map non_null]; [contradiction|].
      intros Hnil [-> | Hc] Hr.
      + destruct (residual (prediction_of LEFT_JOIN ml clean (customer_id m)));
          [discriminate | discriminate].
      + destruct (residual (prediction_of LEFT_JOIN ml clean x)); [discriminate|].
        now apply IH.
    - intros Hall.
      assert (Hl : forall c, In c (nodup Z.eq_dec (map customer_id ml)) ->
                residual (prediction_of LEFT_JOIN ml clean c) = None).
      { intros c Hc. apply nodup_In in Hc.
        pose proof (residual_of_prediction_of LEFT_JOIN ml clean c Hc) as Hr.
        replace (has_orders clean c) with false in Hr.
        - destruct (residual (prediction_of LEFT_JOIN ml clean c)); [discriminate | reflexivity].
        - symmetry. apply has_orders_false. apply in_map_iff in Hc as [m [<- Hm]].
          now apply Hall. }
      revert Hl. generalize (nodup Z.eq_dec (map customer_id ml)).
      intros l. induction l as [|x l IH]; intros Hl; [reflexivity|].
      cbn [map non_null]. rewrite (Hl x (or_introl eq_refl)).
      apply IH. intros c Hc. apply Hl. now right. }
  unfold baseline_query.
  destruct (non_null (map residual (predicted_clv LEFT_JOIN ml clean))) as [|e es] eqn:Hn.
  - rewrite (baseline_metrics_null _ Hn). split.
    + split; [intros _; now apply Hres | reflexivity].
    + intros H. now contradiction H.
  - assert (Hne : non_null (map residual (predicted_clv LEFT_JOIN ml clean)) <> [])
      by (rewrite Hn; discriminate).
    destruct (mean_errors_over_residuals _ Hne) as [Ha Hm].
    unfold baseline_metrics. rewrite Ha, Hm. cbn [option_map MAE MSE RMSE]. split.
    + split; [discriminate|]. intros Hall. apply Hres in Hall. discriminate.
    + intros _. repeat split; discriminate.
Qed.

Open Scope R_scope.

Lemma Int_part_nonneg (x : R) : 0 <= x -> (0 <= Int_part x)%Z.
Proof.
  intros Hx. destruct (base_Int_part x) as [H1 H2].
  assert (H : IZR (-1) < IZR (Int_part x)) by lra.
  apply lt_IZR in H. lia.
Qed.

Lemma ROUND_nonneg (x : R) (n : nat) : 0 <= x -> 0 <= ROUND x n.
Proof.
  intros Hx. unfold ROUND. destruct (Rle_dec 0 x) as [_|Hn]; [|contradiction].
  pose proof (pow10_pos n) as Hp.
  apply Rmult_le_pos; [|left; now apply Rinv_0_lt_compat].
  apply IZR_le, Int_part_nonneg.
  assert (0 <= x * 10 ^ n) by (apply Rmult_le_pos; lra). lra.
Qed.

Lemma Rmean_nonneg (l : list R) :
  (forall x, In x l -> 0 <= x) -> 0 <= Rmean l.
Proof.
  intros H. unfold Rmean.
  assert (Hs : 0 <= Rsum l).
  { unfold Rsum. induction l as [|x l IH]; cbn [fold_right]; [lra|].
    pose proof (H x (or_introl eq_refl)).
    assert (0 <= fold_right Rplus 0 l) by (apply IH; intros y Hy; apply H; now right).
    lra. }
  destruct l as [|x l]; [unfold Rdiv; cbn; lra|].
  apply Rmult_le_pos; [exact Hs|]. left. apply Rinv_0_lt_compat, lt_0_INR. cbn. lia.
Qed.

(** X9. When some customer has a predicted and a target value, the metrics
    query returns three numbers, none of them negative. *)
Theorem baseline_metrics_nonneg (ps : list prediction) :
  non_null (map residual ps) <> [] ->
  exists a m r : R,
    baseline_metrics ps = mkMetrics (Some a) (Some m) (Some r) /\
    0 <= a /\ 0 <= m /\ 0 <= r.
Proof.
  intros Hne. destruct (mean_errors_over_residuals ps Hne) as [Ha Hm].
  unfold baseline_metrics. rewrite Ha, Hm. cbn [option_map].
  eexists. eexists. eexists. split; [reflexivity|].
  assert (Habs : 0 <= Rmean (map Rabs (non_null (map residual ps)))).
  { apply Rmean_nonneg. intros x Hx. apply in_map_iff in Hx as [y [<- _]]. apply Rabs_pos. }
  assert (Hsq : 0 <= Rmean (map (fun x => x ^ 2) (non_null (map residual ps)))).
  { apply Rmean_nonneg. intros x Hx. apply in_map_iff in Hx as [y [<- _]].
    apply pow2_ge_0. }
  split; [now apply ROUND_nonneg|]. split; [now apply ROUND_nonneg|].
  apply ROUND_nonneg, sqrt_pos.
Qed.

Lemma baseline_metrics_nonneg_witness :
  exists a m r : R,
    baseline_metrics (predicted_clv LEFT_JOIN boundary_ml boundary_clean)
      = mkMetrics (Some a) (Some m) (Some r) /\
    0 <= a /\ 0 <= m /\ 0 <= r.
Proof.
  apply (baseline_metrics_nonneg (predicted_clv LEFT_JOIN boundary_ml boundary_clean)).
  replace (predicted_clv LEFT_JOIN boundary_ml boundary_clean)
    with [mkPrediction 12347 (Some 120%Q) (Some 60%Q)] by reflexivity.
  simpl. discriminate.
Defined.

(** ** Further properties of [rmse] *)

(** X10. [rmse] fails exactly when the two vectors differ in length and
    neither has a single element; it is NaN exactly when the difference is
    empty (two empty vectors, or an empty vector against a single element);
    in every other case it is a number. *)
Theorem rmse_outcomes (y_true y_pred : tensor) :
  (rmse y_true y_pred = InvalidArgument <->
   length y_true <> length y_pred /\ length y_true <> 1%nat /\ length y_pred <> 1%nat) /\
  (rmse y_true y_pred = NaN <->
   (y_true = [] /\ y_pred = []) \/
   (y_true = [] /\ length y_pred = 1%nat) \/
   (length y_true = 1%nat /\ y_pred = [])) /\
  ((length y_true = length y_pred \/ length y_true = 1%nat \/ length y_pred = 1%nat) ->
   y_true <> [] -> y_pred <> [] ->
   exists v, rmse y_true y_pred = Scalar v).
Proof.
  unfold rmse, tf_sub.
  destruct y_pred as [|p [|p' yp]]; destruct y_true as [|t [|t' yt]];
    cbn [length Nat.eqb]; unfold tf_reduce_mean, tf_square, zip_with;
    cbn [combine map];
    try (destruct (Nat.eqb (length yp) (length yt)) eqn:E;
         [apply Nat.eqb_eq in E | apply Nat.eqb_neq in E]; cbn [combine map]);
    (split; [|split]);
    try (split; intros H;
         first [ discriminate H
               | reflexivity
               | solve [repeat split; cbn [length]; first [discriminate | lia]]
               | solve [left; split; reflexivity]
               | solve [right; left; split; reflexivity]
               | solve [right; right; split; reflexivity]
               | exfalso; cbn [length] in H;
                 solve [intuition (try discriminate; try lia; try congruence)] ]);
    try (intros H1 H2 H3;
         first [ solve [eexists; reflexivity]
               | exfalso; cbn [length] in H1;
                 solve [intuition (try discriminate; try lia; try congruence)] ]).
Qed.

Lemma Rsum_squares_zero (d : tensor) :
  Rsum (tf_square d) = 0 -> Forall (fun x => x = 0) d.
Proof.
  unfold Rsum, tf_square. induction d as [|x d IH]; cbn [map fold_right]; intros H.
  - constructor.
  - assert (Hs : 0 <= fold_right Rplus 0 (map (fun x => x * x) d)).
    { clear. induction d as [|y d IH]; cbn [map fold_right]; [lra | nra]. }
    assert (Hx : x * x = 0) by nra.
    constructor; [nra | apply IH; nra].
Qed.

Lemma rmse_equal_length (y_true y_pred : tensor) :
  length y_true = length y_pred ->
  y_true <> [] ->
  rmse y_true y_pred = Scalar (sqrt (Rmean (tf_square (zip_with Rminus y_pred y_true)))).
Proof.
  intros Hlen Hne. unfold rmse, tf_sub. rewrite <- Hlen, Nat.eqb_refl.
  pose proof (square_sub_length y_pred y_true (eq_sym Hlen)) as Hl.
  unfold tf_reduce_mean.
  destruct (tf_square (zip_with Rminus y_pred y_true)) as [|e es] eqn:E; [|reflexivity].
  destruct y_true; [congruence|]. rewrite <- Hlen in Hl. discriminate.
Qed.

(** X11. On two non-empty vectors of equal length, [rmse] is zero exactly
    when the two vectors are equal. *)
Theorem rmse_zero_iff_equal (y_true y_pred : tensor) :
  length y_true = length y_pred ->
  y_true <> [] ->
  (rmse y_true y_pred = Scalar 0 <-> y_true = y_pred).
Proof.
  intros Hlen Hne. rewrite (rmse_equal_length y_true y_pred Hlen Hne).
  pose proof (square_sub_length y_pred y_true (eq_sym Hlen)) as Hl.
  assert (Hn : 0 < INR (length (tf_square (zip_with Rminus y_pred y_true)))).
  { rewrite Hl, <- Hlen. destruct y_true; [congruence|]. apply lt_0_INR. cbn. lia. }
  assert (Hs : 0 <= Rsum (tf_square (zip_with Rminus y_pred y_true))).
  { generalize (zip_with Rminus y_pred y_true). intros d. unfold Rsum, tf_square.
    induction d as [|y d IH]; cbn [map fold_right]; [lra | nra]. }
  split.
  - intros H. injection H as H. unfold Rmean in H.
    assert (Hm : 0 <= Rsum (tf_square (zip_with Rminus y_pred y_true))
                      / INR (length (tf_square (zip_with Rminus y_pred y_true)))).
    { apply Rmult_le_pos; [exact Hs | left; now apply Rinv_0_lt_compat]. }
    apply sqrt_eq_0 in H; [|exact Hm].
    assert (H0 : Rsum (tf_square (zip_with Rminus y_pred y_true)) = 0).
    { apply Rmult_integral in H as [H | H]; [exact H|].
      exfalso. apply (Rinv_neq_0_compat _ (Rgt_not_eq _ _ Hn)). exact H. }
    apply Rsum_squares_zero in H0. clear -H0 Hlen.
    revert y_pred Hlen H0. unfold zip_with.
    induction y_true as [|t yt IH]; intros [|p yp] Hlen H0; try discriminate; [reflexivity|].
    cbn [combine map fst snd] in H0. inversion H0 as [|? ? Hx Hrest]; subst.
    f_equal; [lra|]. apply IH; [now injection Hlen | exact Hrest].
  - intros <-. f_equal.
    replace (tf_square (zip_with Rminus y_true y_true))
      with (map (fun _ : R => 0) y_true).
    + unfold Rmean.
      replace (Rsum (map (fun _ : R => 0) y_true)) with 0.
      * unfold Rdiv. rewrite Rmult_0_l. apply sqrt_0.
      * unfold Rsum. clear. induction y_true as [|x l IH]; cbn [map fold_right]; lra.
    + unfold tf_square, zip_with. clear.
      induction y_true as [|x l IH]; cbn [combine map fst snd]; [reflexivity|].
      rewrite <- IH. f_equal. ring.
Qed.

Lemma rmse_zero_iff_equal_witness :
  rmse [3; 4] [3; 4] = Scalar 0 <-> [3; 4] = [3; 4].
Proof.
  apply (rmse_zero_iff_equal [3; 4] [3; 4]); [reflexivity | discriminate].
Defined.

(** X12. A [y_true] of a single element is broadcast: [rmse] treats it as
    that element repeated along [y_pred], without any error. *)
Theorem rmse_broadcasts_single_label (t : R) (y_pred : tensor) :
  rmse [t] y_pred = rmse (repeat t (length y_pred)) y_pred.
Proof.
  unfold rmse, tf_sub. rewrite repeat_length, Nat.eqb_refl.
  destruct y_pred as [|p [|p' yp]]; cbn [length Nat.eqb repeat]; try reflexivity.
  assert (Hz : forall l : tensor,
            zip_with Rminus l (repeat t (length l)) = map (fun x => x - t) l).
  { unfold zip_with. intros l.
    induction l as [|x l IH]; cbn [length repeat combine map fst snd]; [reflexivity|].
    now rewrite IH. }
  change (t :: t :: repeat t (length yp)) with (repeat t (length (p :: p' :: yp))).
  now rewrite Hz.
Qed.

(** ** The split counts and the three subsets *)

Open Scope Z_scope.

Lemma rows_of_split_select (s : string) (clv : list CustomerFeatureRecord) :
  rows_of_split (Some s) clv = select_split s clv.
Proof.
  unfold rows_of_split, select_split. apply filter_ext. intros r.
  destruct (split_eq_dec (data_split r) (Some s)) as [E|E].
  - rewrite E. symmetry. apply String.eqb_refl.
  - destruct (data_split r) as [x|]; [|reflexivity].
    symmetry. apply String.eqb_neq. congruence.
Qed.

Lemma rows_of_split_cons (k : option string) (r : CustomerFeatureRecord)
    (clv : list CustomerFeatureRecord) :
  Z.of_nat (length (rows_of_split k (r :: clv))) =
  (if split_eq_dec (data_split r) k then 1 else 0) + Z.of_nat (length (rows_of_split k clv)).
Proof.
  unfold rows_of_split. cbn [filter].
  destruct (split_eq_dec (data_split r) k); cbn [length]; lia.
Qed.

Lemma indicator_sum (a : option string) (ks : list (option string)) :
  NoDup ks ->
  Zsum (map (fun k => if split_eq_dec a k then 1 else 0) ks) =
  if in_dec split_eq_dec a ks then 1 else 0.
Proof.
  unfold Zsum. induction ks as [|k ks IH]; intros Hnd; [reflexivity|].
  inversion Hnd as [|? ? Hnot Hnd']; subst. cbn [map fold_right].
  rewrite (IH Hnd').
  destruct (split_eq_dec a k) as [->|Hne].
  - destruct (in_dec split_eq_dec k ks) as [Hi|_]; [contradiction|].
    destruct (in_dec split_eq_dec k (k :: ks)) as [_|Hn]; [reflexivity|].
    exfalso. apply Hn. now left.
  - destruct (in_dec split_eq_dec a ks) as [Hi|Hi];
      destruct (in_dec split_eq_dec a (k :: ks)) as [Hj|Hj]; try reflexivity.
    + exfalso. apply Hj. now right.
    + exfalso. destruct Hj as [Hj|Hj]; [congruence | contradiction].
Qed.

Lemma Zsum_map_add {A} (f g : A -> Z) (l : list A) :
  Zsum (map (fun x => f x + g x) l) = Zsum (map f l) + Zsum (map g l).
Proof.
  unfold Zsum. induction l as [|x l IH]; cbn [map fold_right]; lia.
Qed.

(** The group sizes over a duplicate-free list of keys that covers the
    table add up to the size of the table. *)
Lemma group_sizes_total (ks : list (option string)) (clv : list CustomerFeatureRecord) :
  NoDup ks ->
  (forall r, In r clv -> In (data_split r) ks) ->
  Zsum (map (fun k => Z.of_nat (length (rows_of_split k clv))) ks) = Z.of_nat (length clv).
Proof.
  intros Hnd. induction clv as [|r clv IH]; intros Hcov.
  - unfold Zsum. clear. induction ks as [|k ks IH]; cbn [map fold_right]; [reflexivity|].
    rewrite IH. reflexivity.
  - rewrite (map_ext _ (fun k => (if split_eq_dec (data_split r) k then 1 else 0)
                                 + Z.of_nat (length (rows_of_split k clv))))
      by (intros k; apply rows_of_split_cons).
    rewrite Zsum_map_add, (indicator_sum _ _ Hnd).
    rewrite IH by (intros x Hx; apply Hcov; now right).
    destruct (in_dec split_eq_dec (data_split r) ks) as [_|Hn].
    + cbn [length]. lia.
    + exfalso. apply Hn, Hcov. now left.
Qed.

(** X13. The query [SELECT data_split, COUNT( * ) ... GROUP BY data_split]
    lists every split value of the table once; the count it shows for a
    split is the number of rows of the subset selected for that split, at
    least 1; and the counts add up to the number of rows of the table. *)
Theorem split_counts_match_subsets (clv : list CustomerFeatureRecord) :
  NoDup (map fst (split_counts clv)) /\
  (forall k, In k (map fst (split_counts clv)) <-> In k (map data_split clv)) /\
  (forall s n, In (Some s, n) (split_counts clv) ->
     n = Z.of_nat (length (select_split s clv)) /\ 1 <= n) /\
  Zsum (map snd (split_counts clv)) = Z.of_nat (length clv).
Proof.
  unfold split_counts. rewrite !map_map. cbn [fst snd]. rewrite map_id.
  split; [apply NoDup_nodup|]. split; [intros k; apply nodup_In|]. split.
  - intros s n Hin. apply in_map_iff in Hin as [k [Hk Hin]].
    injection Hk as -> <-. rewrite rows_of_split_select. split; [reflexivity|].
    apply nodup_In, in_map_iff in Hin as [r [Hr Hin]].
    assert (H : In r (select_split s clv)) by (apply select_split_In; auto).
    destruct (select_split s clv); [contradiction | cbn [length]; lia].
  - apply group_sizes_total; [apply NoDup_nodup|].
    intros r Hr. apply nodup_In. now apply in_map.
Qed.

Lemma select_split_cons (s : string) (r : CustomerFeatureRecord)
    (clv : list CustomerFeatureRecord) :
  length (select_split s (r :: clv)) =
  ((if split_eq_dec (data_split r) (Some s) then 1 else 0) + length (select_split s clv))%nat.
Proof.
  rewrite <- !rows_of_split_select. unfold rows_of_split. cbn [filter].
  destruct (split_eq_dec (data_split r) (Some s)); reflexivity.
Qed.

(** X14. The three subsets together never hold more rows than the table,
    and they hold all of its rows exactly when every row carries one of the
    split values TRAIN, VALIDATE and TEST; a row with a NULL or any other
    split value is in none of them. *)
Theorem subsets_sizes (clv : list CustomerFeatureRecord) :
  (length (clv_train clv) + length (clv_dev clv) + length (clv_test clv) <= length clv)%nat /\
  ((length (clv_train clv) + length (clv_dev clv) + length (clv_test clv) = length clv)%nat <->
   forall r, In r clv ->
     data_split r = Some "TRAIN"%string \/
     data_split r = Some "VALIDATE"%string \/
     data_split r = Some "TEST"%string).
Proof.
  unfold clv_train, clv_dev, clv_test.
  induction clv as [|r clv [IHle IHeq]].
  - split; [reflexivity|]. split; [intros _ r [] | reflexivity].
  - rewrite !select_split_cons. cbn [length].
    destruct (split_eq_dec (data_split r) (Some "TRAIN"%string)) as [E1|E1];
      destruct (split_eq_dec (data_split r) (Some "VALIDATE"%string)) as [E2|E2];
      destruct (split_eq_dec (data_split r) (Some "TEST"%string)) as [E3|E3];
      try (rewrite E1 in E2; discriminate);
      try (rewrite E1 in E3; discriminate);
      try (rewrite E2 in E3; discriminate).
    + split; [lia|]. split.
      * intros H x [<- | Hx]; [now left | apply IHeq; [lia | exact Hx]].
      * intros H. apply proj2 in IHeq.
        specialize (IHeq (fun x Hx => H x (or_intror Hx))). lia.
    + split; [lia|]. split.
      * intros H x [<- | Hx]; [right; now left | apply IHeq; [lia | exact Hx]].
      * intros H. apply proj2 in IHeq.
        specialize (IHeq (fun x Hx => H x (or_intror Hx))). lia.
    + split; [lia|]. split.
      * intros H x [<- | Hx]; [right; now right | apply IHeq; [lia | exact Hx]].
      * intros H. apply proj2 in IHeq.
        specialize (IHeq (fun x Hx => H x (or_intror Hx))). lia.
    + split; [lia|]. split.
      * intros H. exfalso. lia.
      * intros H. exfalso. destruct (H r (or_introl eq_refl)) as [E | [E | E]]; contradiction.
Qed.

(** ** Batching the data sets *)

Open Scope nat_scope.

Lemma chunks_concat {A} (n : nat) (fuel : nat) (l : list A) :
  0 < n -> length l <= fuel -> concat (chunks fuel n l) = l.
Proof.
  intros Hn. revert l. induction fuel as [|f IH]; intros l Hl.
  - destruct l; [reflexivity | cbn in Hl; lia].
  - destruct l as [|x l]; [reflexivity|].
    cbn [chunks concat]. rewrite IH.
    + apply firstn_skipn.
    + rewrite length_skipn. cbn [length] in *. lia.
Qed.

Lemma chunks_nil {A} (fuel n : nat) : chunks fuel n (@nil A) = [].
Proof. destruct fuel; reflexivity. Qed.

Lemma chunks_sizes {A} (n : nat) (fuel : nat) (l : list A) :
  0 < n -> length l <= fuel ->
  (forall b, In b (chunks fuel n l) -> 1 <= length b <= n) /\
  (forall b, In b (removelast (chunks fuel n l)) -> length b = n) /\
  length l <= length (chunks fuel n l) * n < length l + n.
Proof.
  intros Hn. revert l. induction fuel as [|f IH]; intros l Hl.
  - destruct l; [|cbn in Hl; lia]. cbn. repeat split; try contradiction; lia.
  - destruct l as [|x l]; [cbn; repeat split; try contradiction; lia|].
    cbn [chunks].
    pose proof (length_firstn n (x :: l)) as Hf.
    pose proof (length_skipn n (x :: l)) as Hk.
    cbn [length] in Hf, Hk, Hl.
    destruct (Nat.min_spec n (S (length l))) as [[Hcmp Hmin] | [Hcmp Hmin]];
      rewrite Hmin in Hf; clear Hmin.
    + assert (Hs : length (skipn n (x :: l)) <= f) by lia.
      destruct (IH _ Hs) as [IH1 [IH2 IH3]].
      split; [|split].
      * intros b [<- | Hb]; [rewrite Hf; lia | now apply IH1].
      * destruct (chunks f n (skipn n (x :: l))) as [|c cs] eqn:E.
        -- intros b [].
        -- intros b [<- | Hb]; [exact Hf | now apply IH2].
      * cbn [length]. rewrite Nat.mul_succ_l.
        set (kn := length (chunks f n (skipn n (x :: l))) * n) in *. lia.
    + assert (Hnil : skipn n (x :: l) = []).
      { destruct (skipn n (x :: l)); [reflexivity | cbn [length] in Hk; lia]. }
      rewrite Hnil, chunks_nil. cbn [removelast length In].
      split; [|split].
      * intros b [<- | []]. rewrite Hf. lia.
      * intros b [].
      * lia.
Qed.

(** X15. For a data set that [df_dataset] has returned,
    [.prefetch(1).batch(BATCH_SIZE)] loses or reorders no element: the batches
    put end to end are the data set; every batch holds between 1 and 32
    elements, all but the last exactly 32; and there are just enough batches
    for the elements. *)
Theorem batches_keep_every_element {A} (ds : list A) :
  exists bs : list (list A),
    batched ds = Some bs /\
    concat bs = ds /\
    (forall b, In b bs -> 1 <= length b <= BATCH_SIZE) /\
    (forall b, In b (removelast bs) -> length b = BATCH_SIZE) /\
    length ds <= length bs * BATCH_SIZE < length ds + BATCH_SIZE.
Proof.
  exists (chunks (length ds) 32 ds).
  split; [reflexivity|]. unfold BATCH_SIZE.
  assert (Hn : 0 < 32) by lia.
  pose proof (chunks_concat 32 _ ds Hn (le_n _)) as Hc.
  destruct (chunks_sizes 32 _ ds Hn (le_n _)) as [H1 [H2 H3]].
  split; [exact Hc|]. split; [exact H1|]. split; [exact H2 | exact H3].
Qed.

(** ** The boundary customer and the prepared tables *)

Open Scope Z_scope.







(** The tables of the example: the customer of 2011-09-01 is in the clean
    table with [feature_days = 0], is not in the ML table, and the only row of
    [predicted_clv] is the one of the other customer. *)
Example boundary_tables :
  In (mkInterval (Some 12347) (Some 91) (Some 0))
     (day_intervals (validity_filter (daily_aggregation boundary_raw))) /\
  map customer_id (build_ml_table (fun c => c) scenario_window boundary_raw) = [17850] /\
  predicted_clv LEFT_JOIN
    (build_ml_table (fun c => c) scenario_window boundary_raw)
    (validity_filter (daily_aggregation boundary_raw))
  = [mkPrediction 17850 (Some (240 # 2)%Q) (Some 160%Q)].
Proof.
  split; [vm_compute; right; left; reflexivity|]. split; reflexivity.
Qed.
